(** * Victor DMM driver (hardware/victor-dmm/api.c): acquisition state machine

    A shallow embedding of the acquisition part of the driver: the
    configuration call, the start and stop entry points, the transfer
    completion callback and the event-loop callback, over one device
    instance.  The calls into libusb, glib and the session bus are kept
    as an effect trace; what libusb answers (return codes, completed
    transfers) and the monotonic clock are inputs of the functions.
    The driver's instance list (scan, clear, list, init, cleanup) and
    the information call are embedded next to it. *)

From Stdlib Require Import ZArith List Bool Lia.
From Stdlib Require String.
Import String.StringSyntax.
Delimit Scope string_scope with string.
Import ListNotations.
Open Scope Z_scope.

(** ** Machine integers *)

(** [uint64_t] and [gint64] values are kept as [Z]; a store into a
    64-bit field wraps. *)
Definition UINT64_MOD : Z := 2 ^ 64.
Definition INT64_HALF : Z := 2 ^ 63.

Definition wrap_u64 (x : Z) : Z := x mod UINT64_MOD.
Definition wrap_s64 (x : Z) : Z := (x + INT64_HALF) mod UINT64_MOD - INT64_HALF.

(** ** Enumerations of libsigrok and libusb used by the driver *)

(** Return codes of the driver API. *)
Inductive sr_ret : Type :=
| SR_OK
| SR_ERR
| SR_ERR_MALLOC
| SR_ERR_ARG.

(** [sdi->status]. *)
Inductive sr_status : Type :=
| SR_ST_INACTIVE
| SR_ST_ACTIVE
| SR_ST_STOPPING.

(** The [hwcap] argument of [hw_dev_config_set]: the four capabilities
    the driver lists in [hwcaps], and any other code. *)
Inductive sr_hwcap : Type :=
| SR_HWCAP_MULTIMETER
| SR_HWCAP_LIMIT_MSEC
| SR_HWCAP_LIMIT_SAMPLES
| SR_HWCAP_CONTINUOUS
| SR_HWCAP_OTHER (code : Z).

(** [transfer->status] as libusb reports it. *)
Inductive libusb_transfer_status : Type :=
| LIBUSB_TRANSFER_COMPLETED
| LIBUSB_TRANSFER_ERROR
| LIBUSB_TRANSFER_TIMED_OUT
| LIBUSB_TRANSFER_CANCELLED
| LIBUSB_TRANSFER_STALL
| LIBUSB_TRANSFER_NO_DEVICE
| LIBUSB_TRANSFER_OVERFLOW.

(** Packets handed to [sr_session_send]. *)
Inductive sr_datafeed_packet : Type :=
| SR_DF_HEADER (feed_version : Z)
| SR_DF_META_ANALOG (num_probes : Z)
| SR_DF_END.

(** A [libusb_transfer] allocated by [hw_dev_acquisition_start],
    named by the serial number of that allocation; the 14-byte buffer
    obtained by the [g_try_malloc] next to it carries the same number.
    Both allocations are taken to succeed. *)
Definition transfer : Type := nat.

(** ** Effects *)

(** One entry per call by which the driver acts on the session, the
    event loop, the heap or the device; with its return code where the
    driver looks at it.  Calls that only ask (the clock, the poll
    descriptors, the device list, whether a kernel driver is active)
    are inputs of the functions instead. *)
Inductive event : Type :=
| EvSend (p : sr_datafeed_packet)          (* sr_session_send *)
| EvSourceAdd (fd : Z) (timeout_ms : Z)    (* sr_source_add *)
| EvSourceRemove (fd : Z)                  (* sr_source_remove *)
| EvMalloc (t : transfer) (size : Z)       (* g_try_malloc + libusb_alloc_transfer *)
| EvSubmit (t : transfer) (rc : Z)         (* libusb_submit_transfer *)
| EvFreeTransfer (t : transfer)            (* libusb_free_transfer *)
| EvFreeBuffer (t : transfer)              (* g_free (transfer->buffer) *)
| EvUsbClose                               (* libusb_release_interface + libusb_close *)
| EvUsbOpen (rc : Z)                       (* libusb_open *)
| EvDetachKernelDriver (rc : Z)            (* libusb_detach_kernel_driver *)
| EvClaimInterface (rc : Z).               (* libusb_claim_interface *)

(** ** State *)

(** Modelled from the spec: [struct dev_context] is declared in
    protocol.h, which is not part of the sources at hand.  The two
    limits and the sample counter are 64-bit unsigned (the driver stores
    [uint64_t] data into them and prints them with [PRIu64]); [end_time]
    is a [gint64] like the [now] it is compared with.

    The record gathers [di->priv], the device instance with its private
    context, and what the environment holds for it: the transfers libusb
    has in flight, the allocation counter and the effect trace. *)
Record state : Type := mkState {
  di_priv : bool;              (* di->priv != NULL *)
  status : sr_status;          (* sdi->status *)
  devhdl : bool;               (* devc->usb->devhdl != NULL *)
  limit_msec : Z;              (* devc->limit_msec *)
  limit_samples : Z;           (* devc->limit_samples *)
  num_samples : Z;             (* devc->num_samples *)
  end_time : Z;                (* devc->end_time *)
  usbfd : list Z;              (* devc->usbfd, as far as written *)
  flying : list transfer;      (* transfers submitted and not yet completed *)
  next_transfer : transfer;    (* next allocation *)
  trace : list event           (* effects so far, oldest first *)
}.

Definition set_di_priv (b : bool) (s : state) : state :=
  mkState b (status s) (devhdl s) (limit_msec s) (limit_samples s)
          (num_samples s) (end_time s) (usbfd s) (flying s)
          (next_transfer s) (trace s).

Definition set_status (st : sr_status) (s : state) : state :=
  mkState (di_priv s) st (devhdl s) (limit_msec s) (limit_samples s)
          (num_samples s) (end_time s) (usbfd s) (flying s)
          (next_transfer s) (trace s).

Definition set_devhdl (b : bool) (s : state) : state :=
  mkState (di_priv s) (status s) b (limit_msec s) (limit_samples s)
          (num_samples s) (end_time s) (usbfd s) (flying s)
          (next_transfer s) (trace s).

Definition set_limit_msec (v : Z) (s : state) : state :=
  mkState (di_priv s) (status s) (devhdl s) v (limit_samples s)
          (num_samples s) (end_time s) (usbfd s) (flying s)
          (next_transfer s) (trace s).

Definition set_limit_samples (v : Z) (s : state) : state :=
  mkState (di_priv s) (status s) (devhdl s) (limit_msec s) v
          (num_samples s) (end_time s) (usbfd s) (flying s)
          (next_transfer s) (trace s).

Definition set_num_samples (v : Z) (s : state) : state :=
  mkState (di_priv s) (status s) (devhdl s) (limit_msec s) (limit_samples s)
          v (end_time s) (usbfd s) (flying s)
          (next_transfer s) (trace s).

Definition set_end_time (v : Z) (s : state) : state :=
  mkState (di_priv s) (status s) (devhdl s) (limit_msec s) (limit_samples s)
          (num_samples s) v (usbfd s) (flying s)
          (next_transfer s) (trace s).

Definition set_usbfd (l : list Z) (s : state) : state :=
  mkState (di_priv s) (status s) (devhdl s) (limit_msec s) (limit_samples s)
          (num_samples s) (end_time s) l (flying s)
          (next_transfer s) (trace s).

Definition set_flying (l : list transfer) (s : state) : state :=
  mkState (di_priv s) (status s) (devhdl s) (limit_msec s) (limit_samples s)
          (num_samples s) (end_time s) (usbfd s) l
          (next_transfer s) (trace s).

Definition set_next_transfer (n : transfer) (s : state) : state :=
  mkState (di_priv s) (status s) (devhdl s) (limit_msec s) (limit_samples s)
          (num_samples s) (end_time s) (usbfd s) (flying s)
          n (trace s).

(** Append effects to the trace. *)
Definition emit (evs : list event) (s : state) : state :=
  mkState (di_priv s) (status s) (devhdl s) (limit_msec s) (limit_samples s)
          (num_samples s) (end_time s) (usbfd s) (flying s)
          (next_transfer s) (trace s ++ evs).

(** The device instance as [hw_scan] creates it: status inactive, the
    context zeroed by [g_try_malloc0], no handle; the driver itself not
    yet initialised. *)
Definition dev_new : state :=
  mkState false SR_ST_INACTIVE false 0 0 0 0 [] [] 0%nat [].

Definition status_eqb (a b : sr_status) : bool :=
  match a, b with
  | SR_ST_INACTIVE, SR_ST_INACTIVE
  | SR_ST_ACTIVE, SR_ST_ACTIVE
  | SR_ST_STOPPING, SR_ST_STOPPING => true
  | _, _ => false
  end.

(** ** Driver entry points *)

(** [hw_init]: allocates the driver context. *)
Definition hw_init (s : state) : sr_ret * state :=
  (SR_OK, set_di_priv true s).

(** What libusb answers during [hw_dev_open]. *)
Record open_env : Type := mkOpenEnv {
  dev_found : bool;             (* bus/address still enumerates *)
  open_rc : Z;                  (* libusb_open *)
  kernel_driver_active : Z;     (* libusb_kernel_driver_active *)
  detach_rc : Z;                (* libusb_detach_kernel_driver *)
  claim_rc : Z                  (* libusb_claim_interface *)
}.

(** [hw_dev_open]. *)
Definition hw_dev_open (e : open_env) (s : state) : sr_ret * state :=
  if negb (di_priv s) then (SR_ERR, s)
  else if negb (dev_found e) then (SR_ERR, s)
  else if negb (open_rc e =? 0) then
    (SR_ERR, emit [EvUsbOpen (open_rc e)] s)
  else
    let s1 := set_devhdl true (emit [EvUsbOpen (open_rc e)] s) in
    let s2 :=
      if kernel_driver_active e =? 1
      then emit [EvDetachKernelDriver (detach_rc e)] s1
      else s1 in
    if (kernel_driver_active e =? 1) && (detach_rc e <? 0) then (SR_ERR, s2)
    else
      let s3 := emit [EvClaimInterface (claim_rc e)] s2 in
      if negb (claim_rc e =? 0) then (SR_ERR, s3)
      else (SR_OK, set_status SR_ST_ACTIVE s3).

(** [hw_dev_close]. *)
Definition hw_dev_close (s : state) : sr_ret * state :=
  if negb (di_priv s) then (SR_ERR, s)
  else if negb (devhdl s) then (SR_OK, s)
  else
    (SR_OK,
     set_status SR_ST_INACTIVE (set_devhdl false (emit [EvUsbClose] s))).

(** [hw_dev_config_set]; [value] is the 64-bit datum behind the
    pointer, [mono_us] what [g_get_monotonic_time] returns. *)
Definition hw_dev_config_set (hwcap : sr_hwcap) (value : Z) (mono_us : Z)
    (s : state) : sr_ret * state :=
  if negb (di_priv s) then (SR_ERR, s)
  else if negb (status_eqb (status s) SR_ST_ACTIVE) then (SR_ERR, s)
  else
    match hwcap with
    | SR_HWCAP_LIMIT_MSEC =>
        let s1 := set_limit_msec (wrap_u64 value) s in
        let now := Z.quot mono_us 1000 in
        (SR_OK, set_end_time (wrap_s64 (now + limit_msec s1)) s1)
    | SR_HWCAP_LIMIT_SAMPLES =>
        (SR_OK, set_limit_samples (wrap_u64 value) s)
    | _ => (SR_ERR_ARG, s)
    end.

(** [hw_dev_acquisition_stop]. *)
Definition hw_dev_acquisition_stop (s : state) : sr_ret * state :=
  if negb (di_priv s) then (SR_ERR, s)
  else if negb (status_eqb (status s) SR_ST_ACTIVE) then (SR_ERR, s)
  else (SR_OK, set_status SR_ST_STOPPING s).

(** What libusb delivers to the completion callback: which transfer
    completed, its status and length, and the return code the
    resubmission gets if the callback resubmits. *)
Record completion : Type := mkCompletion {
  c_transfer : transfer;
  c_status : libusb_transfer_status;
  c_actual_length : Z;
  c_resubmit_rc : Z
}.

(** [receive_transfer], entered with the completed transfer [t] out of
    libusb's in-flight list.  The callback frees the transfer before the
    buffer, in both freeing branches. *)
Definition receive_transfer (c : completion) (s : state) : state :=
  let t := c_transfer c in
  let s1 :=
    match c_status c with
    | LIBUSB_TRANSFER_NO_DEVICE => snd (hw_dev_acquisition_stop s)
    | LIBUSB_TRANSFER_COMPLETED =>
        if c_actual_length c =? 14 then
          let s' := set_num_samples (wrap_u64 (num_samples s + 1)) s in
          if negb (limit_samples s' =? 0) then
            if num_samples s' >=? limit_samples s'
            then snd (hw_dev_acquisition_stop s')
            else s'
          else s'
        else s
    | _ => s
    end in
  if status_eqb (status s1) SR_ST_ACTIVE then
    if negb (c_resubmit_rc c =? 0) then
      snd (hw_dev_acquisition_stop
             (emit [EvSubmit t (c_resubmit_rc c); EvFreeTransfer t;
                    EvFreeBuffer t] s1))
    else
      set_flying (flying s1 ++ [t]) (emit [EvSubmit t 0] s1)
  else
    emit [EvFreeTransfer t; EvFreeBuffer t] s1.

(** Membership and removal in the in-flight list. *)
Definition is_flying (t : transfer) (s : state) : bool :=
  existsb (Nat.eqb t) (flying s).

Definition unfly (t : transfer) (s : state) : state :=
  set_flying (filter (fun u => negb (Nat.eqb t u)) (flying s)) s.

(** [libusb_handle_events_timeout_completed]: libusb runs the callback
    of each transfer that completed, in order; only a transfer in flight
    can complete. *)
Fixpoint libusb_handle_events (cs : list completion) (s : state) : state :=
  match cs with
  | [] => s
  | c :: cs' =>
      if is_flying (c_transfer c) s
      then libusb_handle_events cs' (receive_transfer c (unfly (c_transfer c) s))
      else libusb_handle_events cs' s
  end.

(** The descriptors [handle_events] removes: [devc->usbfd] up to the
    first -1. *)
Fixpoint fds_until_sentinel (l : list Z) : list Z :=
  match l with
  | [] => []
  | fd :: l' => if fd =? -1 then [] else fd :: fds_until_sentinel l'
  end.

(** [handle_events]; [cs] are the completions libusb has ready when the
    callback reaches [libusb_handle_events_timeout_completed]. *)
Definition handle_events (mono_us : Z) (cs : list completion) (s : state)
    : state :=
  let s1 :=
    if negb (limit_msec s =? 0) then
      let now := Z.quot mono_us 1000 in
      if now >? end_time s then snd (hw_dev_acquisition_stop s) else s
    else s in
  let s2 :=
    if status_eqb (status s1) SR_ST_STOPPING then
      let s' := emit (map EvSourceRemove (fds_until_sentinel (usbfd s1))) s1 in
      emit [EvSend SR_DF_END] (snd (hw_dev_close s'))
    else s1 in
  libusb_handle_events cs s2.

(** [hw_dev_acquisition_start]; [pollfds] are the descriptors
    [libusb_get_pollfds] returns and [submit_rc] the return code of
    [libusb_submit_transfer]. *)
Definition hw_dev_acquisition_start (pollfds : list Z) (submit_rc : Z)
    (s : state) : sr_ret * state :=
  if negb (di_priv s) then (SR_ERR, s)
  else
    let s1 := emit [EvSend (SR_DF_HEADER 1); EvSend (SR_DF_META_ANALOG 1)] s in
    let s2 :=
      set_usbfd (pollfds ++ [-1])
                (emit (map (fun fd => EvSourceAdd fd 100) pollfds) s1) in
    let t := next_transfer s2 in
    let s3 := set_next_transfer (S t) (emit [EvMalloc t 14] s2) in
    if negb (submit_rc =? 0) then
      (SR_ERR, emit [EvSubmit t submit_rc; EvFreeTransfer t; EvFreeBuffer t] s3)
    else
      (SR_OK, set_flying (flying s3 ++ [t]) (emit [EvSubmit t 0] s3)).

(** ** Runs *)

(** The calls the frontend, the event loop and libusb can make on the
    device instance. *)
Inductive op : Type :=
| OpInit
| OpOpen (e : open_env)
| OpClose
| OpConfigSet (hwcap : sr_hwcap) (value : Z) (mono_us : Z)
| OpStart (pollfds : list Z) (submit_rc : Z)
| OpStop
| OpTick (mono_us : Z) (cs : list completion).

(** What a call returns: a libsigrok code, or the [TRUE] of
    [handle_events]. *)
Inductive retval : Type :=
| Ret (r : sr_ret)
| RetTRUE.

Definition call (o : op) (s : state) : retval * state :=
  match o with
  | OpInit => (Ret (fst (hw_init s)), snd (hw_init s))
  | OpOpen e => (Ret (fst (hw_dev_open e s)), snd (hw_dev_open e s))
  | OpClose => (Ret (fst (hw_dev_close s)), snd (hw_dev_close s))
  | OpConfigSet h v t =>
      (Ret (fst (hw_dev_config_set h v t s)), snd (hw_dev_config_set h v t s))
  | OpStart fds rc =>
      (Ret (fst (hw_dev_acquisition_start fds rc s)),
       snd (hw_dev_acquisition_start fds rc s))
  | OpStop =>
      (Ret (fst (hw_dev_acquisition_stop s)), snd (hw_dev_acquisition_stop s))
  | OpTick t cs => (RetTRUE, handle_events t cs s)
  end.

Definition step (o : op) (s : state) : state := snd (call o s).

Fixpoint run (os : list op) (s : state) : state :=
  match os with
  | [] => s
  | o :: os' => run os' (step o s)
  end.

(** The values returned along a run, in call order. *)
Fixpoint run_rets (os : list op) (s : state) : list retval :=
  match os with
  | [] => []
  | o :: os' => fst (call o s) :: run_rets os' (step o s)
  end.

(** ** Observations on traces and completions *)

(** The packets sent to the session, oldest first. *)
Fixpoint sent_packets (tr : list event) : list sr_datafeed_packet :=
  match tr with
  | [] => []
  | EvSend p :: tr' => p :: sent_packets tr'
  | _ :: tr' => sent_packets tr'
  end.

(** The buffers passed to [g_free], oldest first. *)
Fixpoint freed_buffers (tr : list event) : list transfer :=
  match tr with
  | [] => []
  | EvFreeBuffer t :: tr' => t :: freed_buffers tr'
  | _ :: tr' => freed_buffers tr'
  end.

(** A completion with status completed and all 14 bytes. *)
Definition full_packet (c : completion) : bool :=
  match c_status c with
  | LIBUSB_TRANSFER_COMPLETED => c_actual_length c =? 14
  | _ => false
  end.

(** A successful call of an open device. *)
Definition open_ok : open_env := mkOpenEnv true 0 1 0 0.

(** A full packet for transfer [t], resubmission accepted. *)
Definition full_ok (t : transfer) : completion :=
  mkCompletion t LIBUSB_TRANSFER_COMPLETED 14 0.

(** ** Scenarios *)

(** An initialised driver with an open, active device and nothing else. *)
Definition dev_active : state := run [OpInit; OpOpen open_ok] dev_new.

(** The same after a first successful start. *)
Definition dev_running : state := run [OpStart [5] 0] dev_active.

(** The running device as the completion callback of its transfer finds
    it: the transfer taken out of flight. *)
Definition dev_in_callback : state := unfly 0%nat dev_running.

(** The number of completions the ticks of a run deliver. *)
Fixpoint completions_of (os : list op) : Z :=
  match os with
  | [] => 0
  | OpTick _ cs :: os' => Z.of_nat (length cs) + completions_of os'
  | _ :: os' => completions_of os'
  end.

(** A first acquisition with a 500 ms budget set at 1000 ms: one full
    packet, a stop request, and the tick that closes the device and
    hands the last completion to the callback. *)
Definition first_acquisition : list op :=
  [ OpConfigSet SR_HWCAP_LIMIT_MSEC 500 1000000;
    OpStart [5] 0;
    OpTick 1100000 [full_ok 0%nat];
    OpStop;
    OpTick 1200000 [mkCompletion 0%nat LIBUSB_TRANSFER_TIMED_OUT 0 0] ].

(** Reopening the device and starting again. *)
Definition second_start : list op := [ OpOpen open_ok; OpStart [5] 0 ].

(** Two full packets with no budget, then a sample budget of 1. *)
Definition late_budget : list op :=
  [ OpStart [5] 0;
    OpTick 0 [full_ok 0%nat];
    OpTick 0 [full_ok 0%nat];
    OpConfigSet SR_HWCAP_LIMIT_SAMPLES 1 0 ].

(** A sample budget of 3 reached in a first acquisition, and the first
    full packet of the next one. *)
Definition budget_then_restart : list op :=
  [ OpConfigSet SR_HWCAP_LIMIT_SAMPLES 3 0;
    OpStart [5] 0;
    OpTick 0 [full_ok 0%nat];
    OpTick 0 [full_ok 0%nat];
    OpTick 0 [full_ok 0%nat];
    OpTick 0 [];
    OpOpen open_ok;
    OpStart [5] 0 ].

(** ** Buffer accounting *)

(** How many times the buffer of transfer [t] has been passed to
    [g_free]. *)
Definition frees (t : transfer) (s : state) : nat :=
  count_occ Nat.eq_dec (freed_buffers (trace s)) t.

(** Whether a call hands a completion of transfer [t] to the callback. *)
Definition delivers (t : transfer) (o : op) : bool :=
  match o with
  | OpTick _ cs => existsb (fun c => Nat.eqb (c_transfer c) t) cs
  | _ => false
  end.

(** Every transfer is counted once: in flight, or freed, and only if it
    has been allocated. *)
Definition heap_ok (s : state) : Prop :=
  forall t : transfer,
    (count_occ Nat.eq_dec (flying s) t + frees t s)%nat
      = if (t <? next_transfer s)%nat then 1%nat else 0%nat.

(** ** Session packets *)

(** The calls made on a device between its start and the end of the
    acquisition: configuration, stop requests and event-loop ticks. *)
Definition acquisition_call (o : op) : bool :=
  match o with
  | OpConfigSet _ _ _ | OpStop | OpTick _ _ => true
  | _ => false
  end.

(** A state change that sends no packet, keeps the driver context and
    the handle, and moves the status at most from active to stopping. *)
Definition quiet (s s' : state) : Prop :=
  di_priv s' = di_priv s
  /\ devhdl s' = devhdl s
  /\ sent_packets (trace s') = sent_packets (trace s)
  /\ (status s' = status s
      \/ (status s = SR_ST_ACTIVE /\ status s' = SR_ST_STOPPING)).

(** The packets of one acquisition on top of the packets [before] it:
    header and metadata while the device is active or stopping, and the
    end packet once it is inactive again. *)
Definition acquisition_packets (before : list sr_datafeed_packet)
    (s : state) : Prop :=
  di_priv s = true
  /\ (((status s = SR_ST_ACTIVE \/ status s = SR_ST_STOPPING)
       /\ devhdl s = true
       /\ sent_packets (trace s)
            = before ++ [SR_DF_HEADER 1; SR_DF_META_ANALOG 1])
      \/ (status s = SR_ST_INACTIVE
          /\ sent_packets (trace s)
               = before ++ [SR_DF_HEADER 1; SR_DF_META_ANALOG 1; SR_DF_END])).

(** ** Zero budgets *)

(** A completion that is no stop trigger by itself: the device is still
    there and the resubmission is accepted. *)
Definition benign (c : completion) : bool :=
  (c_resubmit_rc c =? 0)
  && match c_status c with
     | LIBUSB_TRANSFER_NO_DEVICE => false
     | _ => true
     end.

(** A tick that delivers only such completions. *)
Definition benign_tick (o : op) : bool :=
  match o with
  | OpTick _ cs => forallb benign cs
  | _ => false
  end.

(** ** Registered event sources *)

(** The descriptors registered with the event loop after the effects
    [tr], starting from the descriptors [reg]: [sr_source_add] adds
    one, [sr_source_remove] takes it away. *)
Fixpoint sources_after (tr : list event) (reg : list Z) : list Z :=
  match tr with
  | [] => reg
  | EvSourceAdd fd _ :: tr' => sources_after tr' (reg ++ [fd])
  | EvSourceRemove fd :: tr' => sources_after tr' (remove Z.eq_dec fd reg)
  | _ :: tr' => sources_after tr' reg
  end.

Definition registered_sources (tr : list event) : list Z :=
  sources_after tr [].

(** An explicit stop: start, stop request, and the tick that follows
    with the transfer still pending. *)
Definition stopped_early : list op :=
  [ OpInit; OpOpen open_ok; OpStart [5] 0; OpStop; OpTick 0 [] ].

(** A time limit of 500 ms stored at 1000 ms, and the first tick past
    the deadline with the transfer still pending. *)
Definition timed_out_early : list op :=
  [ OpInit; OpOpen open_ok;
    OpConfigSet SR_HWCAP_LIMIT_MSEC 500 1000000;
    OpStart [5] 0; OpTick 1600000 [] ].

(** An explicit stop whose closing tick also gets the last completion
    of the transfer. *)
Definition stopped_with_completion : list op :=
  [ OpInit; OpOpen open_ok; OpStart [5] 0; OpStop;
    OpTick 0 [mkCompletion 0%nat LIBUSB_TRANSFER_TIMED_OUT 0 0] ].

(** ** Further observations on traces *)


(** The calls of an acquisition that leave the stored sample limit
    alone: storing another capability, stop requests and ticks. *)
Definition keeps_sample_limit (o : op) : bool :=
  match o with
  | OpConfigSet SR_HWCAP_LIMIT_SAMPLES _ _ => false
  | OpConfigSet _ _ _ | OpStop | OpTick _ _ => true
  | _ => false
  end.

(** One transfer [t] at most, and in flight whenever the device is
    active. *)
Definition one_transfer (t : transfer) (s : state) : Prop :=
  di_priv s = true
  /\ ((status s = SR_ST_ACTIVE /\ flying s = [t])
      \/ (status s <> SR_ST_ACTIVE /\ (flying s = [t] \/ flying s = []))).

(** The counter under a sample budget [n] with the single transfer [t]:
    below the budget while [t] is in flight, at most the budget once it
    is freed. *)
Definition within_budget (n : Z) (t : transfer) (s : state) : Prop :=
  di_priv s = true /\ limit_samples s = n /\ 0 <= num_samples s
  /\ ((flying s = [t] /\ num_samples s < n)
      \/ (status s <> SR_ST_ACTIVE /\ flying s = []
          /\ num_samples s <= n)).

(** ** Device information: [hw_info_get] *)

(** The [info_id] argument: the three ids the driver answers, and any
    other. *)
Inductive sr_info_id : Type :=
| SR_DI_HWCAPS
| SR_DI_NUM_PROBES
| SR_DI_PROBE_NAMES
| SR_DI_OTHER (code : Z).

(** What [*data] is made to point to. *)
Inductive info_data : Type :=
| DataHwcaps (caps : list sr_hwcap)
| DataInt (n : Z)
| DataNames (names : list String.string).

(** The static tables [hwcaps] (up to its terminating 0) and
    [probe_names]. *)
Definition hwcaps : list sr_hwcap :=
  [SR_HWCAP_MULTIMETER; SR_HWCAP_LIMIT_MSEC; SR_HWCAP_LIMIT_SAMPLES;
   SR_HWCAP_CONTINUOUS].

Definition probe_names : list String.string := ["P1"%string].

(** [hw_info_get]; [data] is what [*data] holds on entry. *)
Definition hw_info_get (info_id : sr_info_id) (data : option info_data)
    : sr_ret * option info_data :=
  match info_id with
  | SR_DI_HWCAPS => (SR_OK, Some (DataHwcaps hwcaps))
  | SR_DI_NUM_PROBES => (SR_OK, Some (DataInt 1))
  | SR_DI_PROBE_NAMES => (SR_OK, Some (DataNames probe_names))
  | SR_DI_OTHER _ => (SR_ERR_ARG, data)
  end.

(** ** The driver's instance list *)

(** [hw_scan], [clear_instances], [hw_dev_list], [hw_init] and
    [hw_cleanup] work on [di->priv] and the list of device instances it
    holds.  Each instance carries its single-device view, a [state]
    whose [di_priv] stands for the driver context the instance lives
    under. *)
Module Registry.

Definition VICTOR_VID : Z := 0x1244.
Definition VICTOR_PID : Z := 0xd237.
Definition VICTOR_VENDOR : String.string := "Victor"%string.

(** One entry of the list [libusb_get_device_list] returns, with what
    libusb answers about it, and whether the allocations [hw_scan]
    makes for it succeed. *)
Record usb_entry : Type := mkUsbEntry {
  desc_rc : Z;                  (* libusb_get_device_descriptor *)
  idVendor : Z;                 (* des.idVendor *)
  idProduct : Z;                (* des.idProduct *)
  bus_number : Z;               (* libusb_get_bus_number *)
  device_address : Z;           (* libusb_get_device_address *)
  alloc_ok : bool               (* sr_dev_inst_new, g_try_malloc0,
                                   sr_probe_new, sr_usb_dev_inst_new *)
}.

(** A probe as [sr_probe_new] builds it. *)
Record sr_probe : Type := mkProbe {
  probe_index : Z;
  probe_analog : bool;
  probe_enabled : bool;
  probe_name : String.string
}.

(** [struct sr_dev_inst] with the [sr_usb_dev_inst] of its context. *)
Record sr_dev_inst : Type := mkInst {
  index : Z;                    (* sdi->index *)
  vendor : String.string;       (* sdi->vendor *)
  probes : list sr_probe;       (* sdi->probes *)
  usb_bus : Z;                  (* devc->usb->bus *)
  usb_address : Z;              (* devc->usb->address *)
  dev : state                   (* status, handle and context *)
}.

(** [di->priv]: [None] for [NULL], else the instance list; and the
    instances [clear_instances] has freed, as they were when freed. *)
Record driver : Type := mkDriver {
  instances : option (list sr_dev_inst);
  freed : list sr_dev_inst
}.

(** The driver before [hw_init]. *)
Definition driver_new : driver := mkDriver None [].

(** [hw_init]; [malloc_ok] tells whether [g_try_malloc0] succeeds. *)
Definition hw_init (malloc_ok : bool) (d : driver) : sr_ret * driver :=
  if negb malloc_ok then (SR_ERR_MALLOC, d)
  else (SR_OK, mkDriver (Some []) (freed d)).

(** What the loop of [clear_instances] does to one instance before
    freeing it: [hw_dev_close], under the driver context at hand. *)
Definition close_inst (i : sr_dev_inst) : sr_dev_inst :=
  mkInst (index i) (vendor i) (probes i) (usb_bus i) (usb_address i)
         (snd (hw_dev_close (set_di_priv true (dev i)))).

(** [clear_instances]. *)
Definition clear_instances (d : driver) : sr_ret * driver :=
  match instances d with
  | None => (SR_OK, d)
  | Some l => (SR_OK, mkDriver (Some []) (freed d ++ map close_inst l))
  end.

(** The instance [hw_scan] builds for a matching device, [devcnt]
    being the length of the instance list at that moment. *)
Definition new_inst (devcnt : nat) (e : usb_entry) : sr_dev_inst :=
  mkInst (Z.of_nat devcnt) VICTOR_VENDOR
         [mkProbe 0 true true "P1"%string]
         (bus_number e) (device_address e)
         (set_di_priv true dev_new).

(** The loop of [hw_scan] over the device list; [insts] is
    [drvc->instances] and [devices] the list to return.  A failed
    allocation returns [NULL] at once. *)
Fixpoint scan_loop (devlist : list usb_entry)
    (insts devices : list sr_dev_inst)
    : list sr_dev_inst * list sr_dev_inst :=
  match devlist with
  | [] => (devices, insts)
  | e :: rest =>
      if negb (desc_rc e =? 0) then scan_loop rest insts devices
      else if negb (idVendor e =? VICTOR_VID)
              || negb (idProduct e =? VICTOR_PID)
      then scan_loop rest insts devices
      else if negb (alloc_ok e) then ([], insts)
      else
        let sdi := new_inst (length insts) e in
        scan_loop rest (insts ++ [sdi]) (devices ++ [sdi])
  end.

(** [hw_scan]; the returned list is [[]] for [NULL]. *)
Definition hw_scan (devlist : list usb_entry) (d : driver)
    : list sr_dev_inst * driver :=
  match instances d with
  | None => ([], d)
  | Some _ =>
      let d1 := snd (clear_instances d) in
      let r := scan_loop devlist [] [] in
      (fst r, mkDriver (Some (snd r)) (freed d1))
  end.

(** [hw_dev_list]. *)
Definition hw_dev_list (d : driver) : list sr_dev_inst :=
  match instances d with
  | None => []
  | Some l => l
  end.

(** [hw_cleanup]. *)
Definition hw_cleanup (d : driver) : sr_ret * driver :=
  match instances d with
  | None => (SR_OK, d)
  | Some _ => (SR_OK, mkDriver None (freed (snd (clear_instances d))))
  end.

(** A device the scan takes: descriptor read, vendor and product
    matching. *)
Definition is_victor (e : usb_entry) : bool :=
  (desc_rc e =? 0) && (idVendor e =? VICTOR_VID)
  && (idProduct e =? VICTOR_PID).

(** The instances built for the devices of [l], numbered from [n]. *)
Fixpoint numbered (n : nat) (l : list usb_entry) : list sr_dev_inst :=
  match l with
  | [] => []
  | e :: l' => new_inst n e :: numbered (S n) l'
  end.

End Registry.

Ltac pick_branch :=
  first [ left; repeat split; (reflexivity || discriminate || lia)
        | right; repeat split;
          first [ reflexivity | discriminate | lia
                | left; reflexivity | right; reflexivity ] ].

Ltac break_if :=
  match goal with
  | |- context [if ?b then _ else _] => destruct b eqn:?
  end.

(** ** Stop request *)

(** C7: [hw_dev_acquisition_stop] on an active device of the initialised
    driver returns [SR_OK] and only replaces the status by stopping: the
    handle, the in-flight transfers, the effect trace, both limits, the
    counter and the deadline are the ones before; on a device that is
    not active it returns [SR_ERR] and the state is the one before. *)
Theorem hw_dev_acquisition_stop_frame :
  forall s : state,
    (di_priv s = true -> status s = SR_ST_ACTIVE ->
     hw_dev_acquisition_stop s =
       (SR_OK,
        mkState (di_priv s) SR_ST_STOPPING (devhdl s) (limit_msec s)
                (limit_samples s) (num_samples s) (end_time s) (usbfd s)
                (flying s) (next_transfer s) (trace s)))
    /\ (status s <> SR_ST_ACTIVE ->
        hw_dev_acquisition_stop s = (SR_ERR, s)).
Proof.
  intros s; split.
  - intros Hp Ha. destruct s; simpl in *; subst. reflexivity.
  - intros Hn. unfold hw_dev_acquisition_stop.
    destruct (di_priv s); simpl; [|reflexivity].
    destruct (status s); simpl; try reflexivity. now elim Hn.
Qed.

Lemma hw_dev_acquisition_stop_frame_witness :
  hw_dev_acquisition_stop dev_active =
    (SR_OK, set_status SR_ST_STOPPING dev_active)
  /\ hw_dev_acquisition_stop dev_new = (SR_ERR, dev_new).
Proof.
  split.
  - apply (proj1 (hw_dev_acquisition_stop_frame dev_active)); reflexivity.
  - apply (proj2 (hw_dev_acquisition_stop_frame dev_new)).
    simpl. discriminate.
Defined.

(** ** Configuration errors *)

(** C10: [hw_dev_config_set] with a capability that is neither the time
    limit nor the sample limit changes nothing and, on an active device
    of the initialised driver, returns [SR_ERR_ARG]; with the driver not
    initialised or the device not active it returns [SR_ERR] and changes
    nothing, whatever the capability. *)
Theorem hw_dev_config_set_errors :
  forall (s : state) (hwcap : sr_hwcap) (value mono_us : Z),
    (hwcap <> SR_HWCAP_LIMIT_MSEC -> hwcap <> SR_HWCAP_LIMIT_SAMPLES ->
     snd (hw_dev_config_set hwcap value mono_us s) = s
     /\ (di_priv s = true -> status s = SR_ST_ACTIVE ->
         fst (hw_dev_config_set hwcap value mono_us s) = SR_ERR_ARG))
    /\ (di_priv s = false \/ status s <> SR_ST_ACTIVE ->
        hw_dev_config_set hwcap value mono_us s = (SR_ERR, s)).
Proof.
  intros s hwcap value mono_us. unfold hw_dev_config_set. split.
  - intros Hm Hs. split.
    + destruct (di_priv s); simpl; [|reflexivity].
      destruct (status s); simpl; try reflexivity.
      destruct hwcap; simpl; try reflexivity; congruence.
    + intros Hp Ha. rewrite Hp, Ha. simpl.
      destruct hwcap; simpl; try reflexivity; congruence.
  - intros [Hp | Hn].
    + rewrite Hp. reflexivity.
    + destruct (di_priv s); simpl; [|reflexivity].
      destruct (status s); simpl; try reflexivity. now elim Hn.
Qed.

Lemma hw_dev_config_set_errors_witness :
  hw_dev_config_set SR_HWCAP_CONTINUOUS 5 0 dev_active
    = (SR_ERR_ARG, dev_active)
  /\ hw_dev_config_set SR_HWCAP_LIMIT_MSEC 5 0 dev_new = (SR_ERR, dev_new).
Proof.
  split.
  - destruct (hw_dev_config_set_errors dev_active SR_HWCAP_CONTINUOUS 5 0)
      as [H _].
    destruct H as [Hs Hr]; [discriminate | discriminate |].
    rewrite (surjective_pairing (hw_dev_config_set _ _ _ _)).
    rewrite Hs, Hr; reflexivity.
  - apply (proj2 (hw_dev_config_set_errors dev_new SR_HWCAP_LIMIT_MSEC 5 0)).
    left; reflexivity.
Defined.

(** ** Start: what is checked *)

(** C2, as the code has it: [hw_dev_acquisition_start] looks neither at
    the status nor at the transfers already in flight.  It returns
    [SR_OK] exactly when the driver is initialised and libusb accepts
    the submission, and then puts the new transfer in flight after the
    ones already there, the status being left as it was; with the
    driver not initialised it changes nothing. *)
Theorem hw_dev_acquisition_start_result :
  forall (pollfds : list Z) (submit_rc : Z) (s : state),
    (fst (hw_dev_acquisition_start pollfds submit_rc s) = SR_OK
       <-> di_priv s = true /\ submit_rc = 0)
    /\ (di_priv s = true -> submit_rc = 0 ->
        flying (snd (hw_dev_acquisition_start pollfds submit_rc s))
          = flying s ++ [next_transfer s])
    /\ (di_priv s = true -> submit_rc <> 0 ->
        fst (hw_dev_acquisition_start pollfds submit_rc s) = SR_ERR
        /\ flying (snd (hw_dev_acquisition_start pollfds submit_rc s))
             = flying s)
    /\ (di_priv s = false ->
        hw_dev_acquisition_start pollfds submit_rc s = (SR_ERR, s))
    /\ status (snd (hw_dev_acquisition_start pollfds submit_rc s)) = status s.
Proof.
  intros pollfds submit_rc s. unfold hw_dev_acquisition_start.
  destruct (di_priv s) eqn:Hp; simpl.
  - destruct (Z.eqb_spec submit_rc 0) as [Hz | Hz]; simpl.
    + subst. intuition congruence.
    + intuition congruence.
  - intuition congruence.
Qed.

Lemma hw_dev_acquisition_start_result_witness :
  flying (snd (hw_dev_acquisition_start [5] 0 dev_running)) = [0%nat; 1%nat]
  /\ fst (hw_dev_acquisition_start [5] 7 dev_running) = SR_ERR
  /\ hw_dev_acquisition_start [5] 0 dev_new = (SR_ERR, dev_new).
Proof.
  destruct (hw_dev_acquisition_start_result [5] 0 dev_running)
    as (_ & Hok & _).
  destruct (hw_dev_acquisition_start_result [5] 7 dev_running)
    as (_ & _ & Hko & _).
  destruct (hw_dev_acquisition_start_result [5] 0 dev_new)
    as (_ & _ & _ & Hno & _).
  split; [| split].
  - apply Hok; reflexivity.
  - apply Hko; [reflexivity | discriminate].
  - apply Hno; reflexivity.
Defined.

(** C2 as the spec states it fails: with one transfer in flight on an
    active device, a further start is accepted and a second transfer is
    in flight; on a device that is not active, start is accepted too. *)
Lemma start_while_running_accepted :
  flying dev_running = [0%nat]
  /\ fst (hw_dev_acquisition_start [5] 0 dev_running) = SR_OK
  /\ flying (snd (hw_dev_acquisition_start [5] 0 dev_running))
       = [0%nat; 1%nat]
  /\ status (snd (hw_init dev_new)) = SR_ST_INACTIVE
  /\ fst (hw_dev_acquisition_start [5] 0 (snd (hw_init dev_new))) = SR_OK.
Proof. repeat split. Qed.

(** ** Machine-integer facts *)

Lemma wrap_u64_small (x : Z) : 0 <= x < UINT64_MOD -> wrap_u64 x = x.
Proof. intros H. unfold wrap_u64. now apply Z.mod_small. Qed.

Lemma wrap_s64_small (x : Z) :
  - INT64_HALF <= x < INT64_HALF -> wrap_s64 x = x.
Proof.
  intros H. unfold wrap_s64.
  rewrite Z.mod_small; [lia |].
  unfold UINT64_MOD, INT64_HALF in *. lia.
Qed.

(** ** The deadline *)

(** C4, as the code has it: the deadline is computed by
    [hw_dev_config_set] when the time limit is stored, as the
    millisecond clock of that moment plus the limit (the values being in
    the 64-bit signed range); [hw_dev_acquisition_start] reads no clock
    and returns with the deadline and the time limit it found. *)
Theorem deadline_set_by_config_set :
  forall (s : state) (value mono_us : Z),
    di_priv s = true -> status s = SR_ST_ACTIVE ->
    0 <= value < INT64_HALF ->
    - INT64_HALF <= Z.quot mono_us 1000 + value < INT64_HALF ->
    let s1 := snd (hw_dev_config_set SR_HWCAP_LIMIT_MSEC value mono_us s) in
    fst (hw_dev_config_set SR_HWCAP_LIMIT_MSEC value mono_us s) = SR_OK
    /\ limit_msec s1 = value
    /\ end_time s1 = Z.quot mono_us 1000 + value
    /\ forall (pollfds : list Z) (submit_rc : Z) (s' : state),
         end_time (snd (hw_dev_acquisition_start pollfds submit_rc s'))
           = end_time s'
         /\ limit_msec (snd (hw_dev_acquisition_start pollfds submit_rc s'))
              = limit_msec s'.
Proof.
  intros s value mono_us Hp Ha Hv Hsum s1. subst s1.
  unfold hw_dev_config_set. rewrite Hp, Ha. simpl.
  assert (Hw : wrap_u64 value = value).
  { apply wrap_u64_small. unfold UINT64_MOD, INT64_HALF in *. lia. }
  rewrite Hw. repeat split.
  - now apply wrap_s64_small.
  - unfold hw_dev_acquisition_start.
    destruct (di_priv s'); simpl; [break_if |]; reflexivity.
  - unfold hw_dev_acquisition_start.
    destruct (di_priv s'); simpl; [break_if |]; reflexivity.
Qed.

Lemma deadline_set_by_config_set_witness :
  end_time (snd (hw_dev_config_set SR_HWCAP_LIMIT_MSEC 500 1000000 dev_active))
    = 1500.
Proof.
  assert (Hv : 0 <= 500 < INT64_HALF) by (unfold INT64_HALF; lia).
  assert (Hs : - INT64_HALF <= Z.quot 1000000 1000 + 500 < INT64_HALF)
    by (unfold INT64_HALF; simpl; lia).
  exact (proj1 (proj2 (proj2
           (deadline_set_by_config_set dev_active 500 1000000
              eq_refl eq_refl Hv Hs)))).
Defined.

(** C4 as the spec states it fails: a 500 ms limit stored at 1000 ms
    gives the deadline 1500 ms, and a start after that leaves it there,
    so it is not start time plus budget for a start at, say, 1800 ms;
    the tick at 1900 ms then already ends the acquisition. *)
Lemma deadline_not_from_start :
  let s := run [OpConfigSet SR_HWCAP_LIMIT_MSEC 500 1000000] dev_active in
  let s' := snd (hw_dev_acquisition_start [5] 0 s) in
  limit_msec s' = 500
  /\ end_time s' = 1500
  /\ end_time s' <> 1800 + limit_msec s'
  /\ status (handle_events 1900000 [] s') = SR_ST_INACTIVE
  /\ sent_packets (trace (handle_events 1900000 [] s'))
       = [SR_DF_HEADER 1; SR_DF_META_ANALOG 1; SR_DF_END].
Proof. vm_compute. repeat split. discriminate. Qed.

(** ** The sample counter *)

Lemma stop_num_samples (s : state) :
  num_samples (snd (hw_dev_acquisition_stop s)) = num_samples s.
Proof. unfold hw_dev_acquisition_stop. repeat break_if; reflexivity. Qed.

Lemma close_num_samples (s : state) :
  num_samples (snd (hw_dev_close s)) = num_samples s.
Proof. unfold hw_dev_close. repeat break_if; reflexivity. Qed.

(** The only write to the counter: one more, modulo 2^64, on a full
    packet. *)
Lemma receive_transfer_num_samples (c : completion) (s : state) :
  num_samples (receive_transfer c s)
    = if full_packet c then wrap_u64 (num_samples s + 1) else num_samples s.
Proof.
  unfold receive_transfer, full_packet.
  destruct (c_status c); simpl;
    repeat (break_if; simpl);
    rewrite ?stop_num_samples; simpl; rewrite ?stop_num_samples;
    reflexivity.
Qed.

Lemma receive_transfer_num_samples_bounds (c : completion) (s : state) :
  0 <= num_samples s -> num_samples s + 1 < UINT64_MOD ->
  num_samples s <= num_samples (receive_transfer c s) <= num_samples s + 1.
Proof.
  intros H0 H1. rewrite receive_transfer_num_samples.
  destruct (full_packet c); [| lia].
  rewrite wrap_u64_small; lia.
Qed.

Lemma libusb_handle_events_num_samples (cs : list completion) :
  forall s : state,
    0 <= num_samples s ->
    num_samples s + Z.of_nat (length cs) < UINT64_MOD ->
    num_samples s <= num_samples (libusb_handle_events cs s)
      <= num_samples s + Z.of_nat (length cs).
Proof.
  induction cs as [| c cs IH]; intros s H0 H1; simpl.
  - lia.
  - simpl length in H1. rewrite Nat2Z.inj_succ in *.
    destruct (is_flying (c_transfer c) s).
    + pose proof (receive_transfer_num_samples_bounds c
                    (unfly (c_transfer c) s)) as Hb.
      simpl in Hb. specialize (Hb H0 ltac:(lia)).
      specialize (IH (receive_transfer c (unfly (c_transfer c) s))
                     ltac:(lia) ltac:(lia)).
      lia.
    + specialize (IH s H0 ltac:(lia)). lia.
Qed.

Lemma step_num_samples (o : op) (s : state) :
  0 <= num_samples s ->
  num_samples s + completions_of [o] < UINT64_MOD ->
  num_samples s <= num_samples (step o s)
    <= num_samples s + completions_of [o].
Proof.
  intros H0 H1. destruct o; unfold step, call; simpl in *.
  - lia.
  - unfold hw_dev_open. repeat (break_if; simpl); lia.
  - rewrite close_num_samples. lia.
  - unfold hw_dev_config_set. destruct hwcap; repeat (break_if; simpl); lia.
  - unfold hw_dev_acquisition_start. repeat (break_if; simpl); lia.
  - rewrite stop_num_samples. lia.
  - unfold handle_events.
    set (s1 := if negb (limit_msec s =? 0) then _ else s).
    assert (E1 : num_samples s1 = num_samples s).
    { subst s1. repeat (break_if; simpl);
        rewrite ?stop_num_samples; reflexivity. }
    set (s2 := if status_eqb (status s1) SR_ST_STOPPING then _ else s1).
    assert (E2 : num_samples s2 = num_samples s).
    { subst s2. break_if; simpl; rewrite ?close_num_samples; simpl; auto. }
    pose proof (libusb_handle_events_num_samples cs s2) as Hb.
    rewrite E2 in Hb. rewrite Z.add_0_r in *. auto.
Qed.

Lemma completions_of_cons (o : op) (os : list op) :
  completions_of (o :: os) = completions_of [o] + completions_of os.
Proof. destruct o; simpl; lia. Qed.

Lemma completions_of_nonneg (os : list op) : 0 <= completions_of os.
Proof.
  induction os as [| o os IH]; simpl; [lia |]. destruct o; lia.
Qed.

Lemma run_num_samples (os : list op) :
  forall s : state,
    0 <= num_samples s ->
    num_samples s + completions_of os < UINT64_MOD ->
    num_samples s <= num_samples (run os s)
      <= num_samples s + completions_of os.
Proof.
  induction os as [| o os IH]; intros s H0 H1.
  - simpl. lia.
  - rewrite completions_of_cons in *.
    pose proof (completions_of_nonneg os) as Hn.
    pose proof (completions_of_nonneg [o]) as Hn1.
    pose proof (step_num_samples o s H0 ltac:(lia)) as Hs.
    specialize (IH (step o s) ltac:(lia) ltac:(lia)).
    change (run (o :: os) s) with (run os (step o s)). lia.
Qed.

(** C3, as the code has it: [hw_dev_acquisition_start] returns with the
    sample counter and the deadline it found, and no call lowers the
    counter as long as it stays below 2^64. *)
Theorem start_keeps_counter_and_deadline :
  forall (pollfds : list Z) (submit_rc : Z) (s : state),
    num_samples (snd (hw_dev_acquisition_start pollfds submit_rc s))
      = num_samples s
    /\ end_time (snd (hw_dev_acquisition_start pollfds submit_rc s))
         = end_time s
    /\ forall o : op,
         0 <= num_samples s ->
         num_samples s + completions_of [o] < UINT64_MOD ->
         num_samples s <= num_samples (step o s).
Proof.
  intros pollfds submit_rc s. repeat split.
  - unfold hw_dev_acquisition_start. repeat (break_if; simpl); reflexivity.
  - unfold hw_dev_acquisition_start. repeat (break_if; simpl); reflexivity.
  - intros o H0 H1. now apply step_num_samples.
Qed.

Lemma start_keeps_counter_and_deadline_witness :
  num_samples (run first_acquisition dev_active)
    <= num_samples (step (OpTick 0 [full_ok 0%nat])
                         (run first_acquisition dev_active)).
Proof.
  apply (proj2 (proj2 (start_keeps_counter_and_deadline
                         [] 0 (run first_acquisition dev_active)))).
  - vm_compute. discriminate.
  - vm_compute. reflexivity.
Defined.

(** C3 as the spec states it fails: after a first acquisition that
    counted one sample under a deadline of 1500 ms, the device is
    reopened and started again; the start is accepted and the counter
    is 1 and the deadline 1500, not zero and unset. *)
Lemma second_start_keeps_count :
  let s := run (first_acquisition ++ second_start) dev_active in
  last (run_rets (first_acquisition ++ second_start) dev_active) RetTRUE
    = Ret SR_OK
  /\ status s = SR_ST_ACTIVE
  /\ num_samples s = 1
  /\ end_time s = 1500.
Proof. vm_compute. repeat split. Qed.

(** C5: a completion with status completed and 14 bytes raises the
    counter by one, any other completion leaves it as it is, and along
    any run of calls the counter does not go down (the counter staying
    below 2^64). *)
Theorem receive_transfer_counts :
  forall (c : completion) (s : state),
    0 <= num_samples s -> num_samples s + 1 < UINT64_MOD ->
    (num_samples (receive_transfer c s) = num_samples s + 1
       <-> full_packet c = true)
    /\ (full_packet c = false ->
        num_samples (receive_transfer c s) = num_samples s)
    /\ forall os : list op,
         num_samples s + completions_of os < UINT64_MOD ->
         num_samples s <= num_samples (run os s).
Proof.
  intros c s H0 H1. rewrite receive_transfer_num_samples. repeat split.
  - destruct (full_packet c); [reflexivity | lia].
  - intros Hf. rewrite Hf. apply wrap_u64_small. lia.
  - intros Hf. now rewrite Hf.
  - intros os Hos. now apply run_num_samples.
Qed.

Lemma receive_transfer_counts_witness :
  num_samples (receive_transfer (full_ok 0%nat) dev_in_callback) = 0 + 1
  /\ num_samples
       (receive_transfer
          (mkCompletion 0%nat LIBUSB_TRANSFER_TIMED_OUT 0 0) dev_in_callback) = 0.
Proof.
  assert (H0 : 0 <= num_samples dev_in_callback) by (vm_compute; discriminate).
  assert (H1 : num_samples dev_in_callback + 1 < UINT64_MOD)
    by (vm_compute; reflexivity).
  split.
  - apply (proj1 (receive_transfer_counts (full_ok 0%nat) dev_in_callback H0 H1)).
    reflexivity.
  - apply (proj1 (proj2 (receive_transfer_counts
             (mkCompletion 0%nat LIBUSB_TRANSFER_TIMED_OUT 0 0)
             dev_in_callback H0 H1))).
    reflexivity.
Defined.

(** ** The sample budget *)

Lemma stop_active (s : state) :
  di_priv s = true -> status s = SR_ST_ACTIVE ->
  snd (hw_dev_acquisition_stop s) = set_status SR_ST_STOPPING s.
Proof.
  intros Hp Ha. unfold hw_dev_acquisition_stop. now rewrite Hp, Ha.
Qed.

Lemma stop_not_active (s : state) :
  status s <> SR_ST_ACTIVE -> snd (hw_dev_acquisition_stop s) = s.
Proof.
  intros Hn. unfold hw_dev_acquisition_stop.
  destruct (di_priv s); simpl; [| reflexivity].
  destruct (status s); simpl; try reflexivity. now elim Hn.
Qed.

(** C6, as the code has it: on an active device with a sample budget
    stored, a full packet raises the counter by one and the callback
    requests the stop exactly when the counter is then at or above the
    budget: it frees the transfer instead of resubmitting it and the
    status is stopping; below the budget the transfer is resubmitted
    and the device stays active.  So from a counter below the budget
    the counter does not pass the budget, and a counter that is
    already at or above it when the packet arrives goes one further
    above it, with the stop requested at that packet. *)
Theorem sample_budget_stop :
  forall (c : completion) (s : state),
    di_priv s = true -> status s = SR_ST_ACTIVE ->
    full_packet c = true ->
    0 <= num_samples s -> num_samples s + 1 < UINT64_MOD ->
    0 < limit_samples s ->
    let s' := receive_transfer c s in
    num_samples s' = num_samples s + 1
    /\ limit_samples s' = limit_samples s
    /\ (num_samples s < limit_samples s ->
        num_samples s' <= limit_samples s')
    /\ (limit_samples s' <= num_samples s' ->
        status s' = SR_ST_STOPPING
        /\ flying s' = flying s
        /\ trace s' = trace s ++ [EvFreeTransfer (c_transfer c);
                                  EvFreeBuffer (c_transfer c)])
    /\ (num_samples s' < limit_samples s' -> c_resubmit_rc c = 0 ->
        status s' = SR_ST_ACTIVE
        /\ flying s' = flying s ++ [c_transfer c]).
Proof.
  intros c s Hp Ha Hf Hn Hm Hl s'.
  assert (Hw : wrap_u64 (num_samples s + 1) = num_samples s + 1)
    by (apply wrap_u64_small; lia).
  subst s'. unfold receive_transfer, full_packet in *.
  destruct (c_status c); try discriminate. rewrite Hf.
  cbn [set_num_samples limit_samples num_samples]. rewrite Hw.
  destruct (Z.eqb_spec (limit_samples s) 0) as [E0 | E0]; [lia |].
  cbn [negb].
  destruct (Z.geb_spec (num_samples s + 1) (limit_samples s)) as [Hge | Hlt].
  - rewrite stop_active by (simpl; assumption). simpl.
    repeat split; intros; try lia; try (exfalso; lia).
  - simpl. rewrite Ha. simpl.
    destruct (Z.eqb_spec (c_resubmit_rc c) 0) as [Hrc | Hrc]; cbn [negb].
    + simpl. repeat split; intros; try lia; try (exfalso; lia); auto.
    + rewrite stop_active by (simpl; assumption). simpl.
      repeat split; intros; try lia; try (exfalso; lia); auto.
Qed.

Lemma sample_budget_stop_witness :
  let s := unfly 1%nat (run budget_then_restart dev_active) in
  num_samples (receive_transfer (full_ok 1%nat) s) = 3 + 1
  /\ status (receive_transfer (full_ok 1%nat) s) = SR_ST_STOPPING.
Proof.
  intros s.
  assert (Hn : 0 <= num_samples s) by (vm_compute; discriminate).
  assert (Hm : num_samples s + 1 < UINT64_MOD) by (vm_compute; reflexivity).
  assert (Hl : 0 < limit_samples s) by (vm_compute; reflexivity).
  destruct (sample_budget_stop (full_ok 1%nat) s
              eq_refl eq_refl eq_refl Hn Hm Hl) as (Hc & _ & _ & Hstop & _).
  split; [exact Hc |].
  apply Hstop. vm_compute. discriminate.
Defined.

(** C6 as the spec states it fails.  A budget of 1 stored when two
    samples are already counted leaves the device active with the
    counter above the budget and no stop requested in the whole run;
    the stop comes with the next full packet, at counter 3.  And a
    budget of 3 reached in a first acquisition is already met when the
    next one starts: its first full packet makes the counter 4 before
    the stop is requested. *)
Lemma counter_above_budget :
  (let s := run late_budget dev_active in
   limit_samples s = 1 /\ num_samples s = 2 /\ status s = SR_ST_ACTIVE
   /\ sent_packets (trace s) = [SR_DF_HEADER 1; SR_DF_META_ANALOG 1]
   /\ num_samples (step (OpTick 0 [full_ok 0%nat]) s) = 3
   /\ status (step (OpTick 0 [full_ok 0%nat]) s) = SR_ST_STOPPING)
  /\ (let s := run budget_then_restart dev_active in
      limit_samples s = 3 /\ num_samples s = 3 /\ status s = SR_ST_ACTIVE
      /\ num_samples (step (OpTick 0 [full_ok 1%nat]) s) = 4
      /\ status (step (OpTick 0 [full_ok 1%nat]) s) = SR_ST_STOPPING).
Proof. vm_compute. repeat split. Qed.

(** ** The receive buffer *)

Lemma freed_buffers_app (a b : list event) :
  freed_buffers (a ++ b) = freed_buffers a ++ freed_buffers b.
Proof.
  induction a as [| e a IH]; simpl; [reflexivity |].
  destruct e; simpl; now rewrite IH.
Qed.

Lemma count_occ_unfly (t x : transfer) (l : list transfer) :
  count_occ Nat.eq_dec (filter (fun u => negb (Nat.eqb t u)) l) x
    = if Nat.eqb t x then 0%nat else count_occ Nat.eq_dec l x.
Proof.
  induction l as [| u l IH]; simpl.
  - now destruct (Nat.eqb t x).
  - destruct (Nat.eqb_spec t u) as [E | E]; simpl.
    + subst u. destruct (Nat.eq_dec t x) as [E' | E'].
      * subst x. rewrite Nat.eqb_refl in *. exact IH.
      * exact IH.
    + destruct (Nat.eq_dec u x) as [E' | E'].
      * subst x. rewrite IH.
        destruct (Nat.eqb_spec t u); [contradiction | reflexivity].
      * exact IH.
Qed.

Lemma is_flying_count (t : transfer) (s : state) :
  is_flying t s = true <-> (0 < count_occ Nat.eq_dec (flying s) t)%nat.
Proof.
  unfold is_flying. rewrite existsb_exists. split.
  - intros (u & Hin & E). apply Nat.eqb_eq in E. subst u.
    exact (proj1 (count_occ_In Nat.eq_dec (flying s) t) Hin).
  - intros Hc. exists t. split; [| apply Nat.eqb_refl].
    exact (proj2 (count_occ_In Nat.eq_dec (flying s) t) Hc).
Qed.

(** The callback either puts the transfer back in flight or frees its
    buffer once; it allocates nothing. *)
Lemma receive_transfer_heap (c : completion) (s : state) :
  next_transfer (receive_transfer c s) = next_transfer s
  /\ ((flying (receive_transfer c s) = flying s ++ [c_transfer c]
       /\ freed_buffers (trace (receive_transfer c s))
            = freed_buffers (trace s))
      \/ (flying (receive_transfer c s) = flying s
          /\ freed_buffers (trace (receive_transfer c s))
               = freed_buffers (trace s) ++ [c_transfer c])).
Proof.
  unfold receive_transfer, hw_dev_acquisition_stop.
  destruct (c_status c); simpl;
    repeat (break_if; simpl);
    rewrite ?freed_buffers_app; simpl; rewrite ?app_nil_r; auto.
Qed.

Lemma heap_ok_same (s s' : state) :
  flying s' = flying s ->
  freed_buffers (trace s') = freed_buffers (trace s) ->
  next_transfer s' = next_transfer s ->
  heap_ok s -> heap_ok s'.
Proof.
  intros Hf Ht Hn H t. unfold frees. rewrite Hf, Ht, Hn. apply H.
Qed.

Lemma freed_buffers_source_add (fds : list Z) :
  freed_buffers (map (fun fd => EvSourceAdd fd 100) fds) = [].
Proof. induction fds; simpl; auto. Qed.

Lemma freed_buffers_source_remove (fds : list Z) :
  freed_buffers (map EvSourceRemove fds) = [].
Proof. induction fds; simpl; auto. Qed.

Lemma heap_ok_stop (s : state) :
  heap_ok s -> heap_ok (snd (hw_dev_acquisition_stop s)).
Proof.
  apply heap_ok_same; unfold hw_dev_acquisition_stop;
    repeat (break_if; simpl); reflexivity.
Qed.

Lemma heap_ok_close (s : state) :
  heap_ok s -> heap_ok (snd (hw_dev_close s)).
Proof.
  apply heap_ok_same; unfold hw_dev_close;
    repeat (break_if; simpl); rewrite ?freed_buffers_app, ?app_nil_r;
    reflexivity.
Qed.

Lemma heap_ok_emit_quiet (evs : list event) (s : state) :
  freed_buffers evs = [] -> heap_ok s -> heap_ok (emit evs s).
Proof.
  intros He. apply heap_ok_same; simpl; auto.
  now rewrite freed_buffers_app, He, app_nil_r.
Qed.

Lemma heap_ok_callback (c : completion) (s : state) :
  heap_ok s -> is_flying (c_transfer c) s = true ->
  heap_ok (receive_transfer c (unfly (c_transfer c) s)).
Proof.
  intros H Hfly x.
  apply is_flying_count in Hfly.
  pose proof (H (c_transfer c)) as Ht. pose proof (H x) as Hx.
  unfold frees in *.
  destruct (receive_transfer_heap c (unfly (c_transfer c) s))
    as (Hn & [(Hfl & Hfr) | (Hfl & Hfr)]);
    rewrite Hn, Hfl, Hfr; unfold unfly; simpl;
    rewrite count_occ_app, count_occ_unfly; simpl;
    destruct (Nat.eqb_spec (c_transfer c) x) as [E | E].
  - subst x. destruct (Nat.eq_dec (c_transfer c) (c_transfer c));
      [| contradiction].
    revert Ht. destruct (c_transfer c <? next_transfer s)%nat; intros Ht; lia.
  - destruct (Nat.eq_dec (c_transfer c) x); [contradiction |].
    rewrite <- Hx. lia.
  - subst x. destruct (Nat.eq_dec (c_transfer c) (c_transfer c));
      [| contradiction].
    unfold transfer in *.
    revert Ht. destruct (c_transfer c <? next_transfer s)%nat; intros Ht; lia.
  - destruct (Nat.eq_dec (c_transfer c) x); [contradiction |].
    unfold transfer in *. rewrite <- Hx. lia.
Qed.

Lemma heap_ok_libusb_handle_events (cs : list completion) :
  forall s : state, heap_ok s -> heap_ok (libusb_handle_events cs s).
Proof.
  induction cs as [| c cs IH]; intros s H; simpl; [exact H |].
  destruct (is_flying (c_transfer c) s) eqn:Hfly.
  - apply IH. now apply heap_ok_callback.
  - now apply IH.
Qed.

Lemma heap_ok_handle_events (mono_us : Z) (cs : list completion) (s : state) :
  heap_ok s -> heap_ok (handle_events mono_us cs s).
Proof.
  intros H. unfold handle_events.
  apply heap_ok_libusb_handle_events.
  assert (H1 : heap_ok
            (if negb (limit_msec s =? 0)
             then if Z.quot mono_us 1000 >? end_time s
                  then snd (hw_dev_acquisition_stop s) else s
             else s)).
  { repeat break_if; auto using heap_ok_stop. }
  break_if; [| exact H1].
  apply heap_ok_emit_quiet; [reflexivity |].
  apply heap_ok_close.
  apply heap_ok_emit_quiet; [apply freed_buffers_source_remove | exact H1].
Qed.

Lemma heap_ok_start (pollfds : list Z) (submit_rc : Z) (s : state) :
  heap_ok s -> heap_ok (snd (hw_dev_acquisition_start pollfds submit_rc s)).
Proof.
  intros H x. pose proof (H x) as Hx. unfold frees in *.
  unfold hw_dev_acquisition_start.
  destruct (di_priv s); simpl; [| exact Hx].
  destruct (negb (submit_rc =? 0)); simpl;
    rewrite ?freed_buffers_app, ?freed_buffers_source_add; simpl;
    rewrite ?app_nil_r, ?count_occ_app; simpl;
    unfold transfer in *; revert Hx;
    destruct (Nat.eq_dec (next_transfer s) x) as [E | E];
    destruct (Nat.ltb_spec x (next_transfer s));
    destruct (Nat.ltb_spec x (S (next_transfer s))); lia.
Qed.

Lemma heap_ok_step (o : op) (s : state) : heap_ok s -> heap_ok (step o s).
Proof.
  intros H. destruct o; unfold step, call; simpl.
  - revert H. apply heap_ok_same; reflexivity.
  - revert H. apply heap_ok_same; unfold hw_dev_open;
      repeat (break_if; simpl); rewrite ?freed_buffers_app; simpl;
      rewrite ?app_nil_r; reflexivity.
  - now apply heap_ok_close.
  - revert H. apply heap_ok_same; unfold hw_dev_config_set;
      destruct hwcap; repeat (break_if; simpl); reflexivity.
  - now apply heap_ok_start.
  - now apply heap_ok_stop.
  - now apply heap_ok_handle_events.
Qed.

Lemma heap_ok_run (os : list op) :
  forall s : state, heap_ok s -> heap_ok (run os s).
Proof.
  induction os as [| o os IH]; intros s H; simpl; [exact H |].
  apply IH. now apply heap_ok_step.
Qed.

Lemma heap_ok_dev_new : heap_ok dev_new.
Proof. intros t. reflexivity. Qed.

Lemma count_occ_single (u t : nat) :
  u <> t -> count_occ Nat.eq_dec [u] t = 0%nat.
Proof. intros H. simpl. destruct (Nat.eq_dec u t); [contradiction | auto]. Qed.

(** A completion of another transfer neither frees the buffer of [t]
    nor takes [t] out of flight. *)
Lemma callback_untouched (c : completion) (s : state) (t : transfer) :
  c_transfer c <> t ->
  frees t (receive_transfer c (unfly (c_transfer c) s)) = frees t s
  /\ (is_flying t s = true ->
      is_flying t (receive_transfer c (unfly (c_transfer c) s)) = true).
Proof.
  intros Hne. unfold frees. rewrite !is_flying_count.
  destruct (receive_transfer_heap c (unfly (c_transfer c) s))
    as (_ & [(Hfl & Hfr) | (Hfl & Hfr)]);
    rewrite Hfl, Hfr; unfold unfly; simpl;
    rewrite ?count_occ_app, count_occ_unfly;
    destruct (Nat.eqb_spec (c_transfer c) t); try contradiction;
    rewrite ?count_occ_single by assumption;
    unfold transfer in *; split; intros; lia.
Qed.

Lemma libusb_handle_events_untouched (cs : list completion) (t : transfer) :
  forall s : state,
    existsb (fun c => Nat.eqb (c_transfer c) t) cs = false ->
    frees t (libusb_handle_events cs s) = frees t s
    /\ (is_flying t s = true ->
        is_flying t (libusb_handle_events cs s) = true).
Proof.
  induction cs as [| c cs IH]; intros s Hd; simpl in *; [auto |].
  apply orb_false_iff in Hd. destruct Hd as [Hc Hd].
  apply Nat.eqb_neq in Hc.
  destruct (is_flying (c_transfer c) s).
  - destruct (callback_untouched c s t Hc) as [Hf Hfl].
    destruct (IH (receive_transfer c (unfly (c_transfer c) s)) Hd)
      as [Hf' Hfl'].
    split; [congruence | auto].
  - now apply IH.
Qed.

Lemma handle_events_untouched (mono_us : Z) (cs : list completion)
    (t : transfer) (s : state) :
  existsb (fun c => Nat.eqb (c_transfer c) t) cs = false ->
  frees t (handle_events mono_us cs s) = frees t s
  /\ (is_flying t s = true ->
      is_flying t (handle_events mono_us cs s) = true).
Proof.
  intros Hd. unfold handle_events.
  match goal with
  | |- context [libusb_handle_events cs ?s2] =>
      destruct (libusb_handle_events_untouched cs t s2 Hd) as [Hf Hfl];
      assert (E : frees t s2 = frees t s /\ flying s2 = flying s)
  end.
  { unfold frees, hw_dev_acquisition_stop, hw_dev_close.
    repeat (break_if; simpl);
      rewrite ?freed_buffers_app, ?freed_buffers_source_remove; simpl;
      rewrite ?app_nil_r; auto. }
  destruct E as [E1 E2]. split; [congruence |].
  intros Hin. apply Hfl. unfold is_flying in *. now rewrite E2.
Qed.

(** A call that delivers no completion of [t] leaves [t] in flight, and
    frees its buffer only if it is the start that allocated it and saw
    its submission refused. *)
Lemma step_untouched (o : op) (s : state) (t : transfer) :
  delivers t o = false ->
  (is_flying t s = true -> is_flying t (step o s) = true)
  /\ (frees t (step o s) = frees t s
      \/ exists pollfds submit_rc,
           o = OpStart pollfds submit_rc /\ submit_rc <> 0
           /\ t = next_transfer s).
Proof.
  intros Hd. destruct o; unfold step, call; simpl in *.
  - auto.
  - unfold hw_dev_open, frees, is_flying.
    repeat (break_if; simpl); rewrite ?freed_buffers_app; simpl;
      rewrite ?app_nil_r; auto.
  - unfold hw_dev_close, frees, is_flying.
    repeat (break_if; simpl); rewrite ?freed_buffers_app, ?app_nil_r; auto.
  - unfold hw_dev_config_set, frees, is_flying.
    destruct hwcap; repeat (break_if; simpl); auto.
  - unfold hw_dev_acquisition_start, frees, is_flying.
    destruct (di_priv s); simpl; [| auto].
    destruct (Z.eqb_spec submit_rc 0) as [E | E]; simpl;
      rewrite ?freed_buffers_app, ?freed_buffers_source_add; simpl;
      rewrite ?app_nil_r.
    + split; [| auto]. intros H. rewrite existsb_app.
      apply orb_true_iff. left. exact H.
    + split; [auto |].
      destruct (Nat.eq_dec (next_transfer s) t) as [Et | Et].
      * right. exists pollfds, submit_rc. auto.
      * left. rewrite count_occ_app, count_occ_single by assumption.
        apply Nat.add_0_r.
  - unfold hw_dev_acquisition_stop, frees, is_flying.
    repeat (break_if; simpl); auto.
  - destruct (handle_events_untouched mono_us cs t s Hd). auto.
Qed.

(** On a device that is not active the callback only counts a full
    packet and frees the transfer and its buffer. *)
Lemma receive_transfer_not_active (c : completion) (s : state) :
  status s <> SR_ST_ACTIVE ->
  receive_transfer c s
    = emit [EvFreeTransfer (c_transfer c); EvFreeBuffer (c_transfer c)]
           (if full_packet c
            then set_num_samples (wrap_u64 (num_samples s + 1)) s
            else s).
Proof.
  intros Hn. unfold receive_transfer, full_packet, hw_dev_acquisition_stop.
  destruct s as [p st h lm ls ns et fd fl nx tr]. simpl in *.
  destruct st; [| now elim Hn |];
    destruct p, (c_status c), (c_actual_length c =? 14), (ls =? 0),
      (wrap_u64 (ns + 1) >=? ls), (c_resubmit_rc c =? 0); reflexivity.
Qed.

(** Buffer accounting, the part of the buffer invariant the driver
    keeps: in every state reached from a fresh device, the buffer of a
    transfer has been freed never while the transfer is in flight, and
    once when the transfer has been allocated and is no longer in
    flight.  The buffer of a transfer in flight is freed only by a call
    that runs the completion callback on it, and the transfer stays in
    flight through every call that delivers no completion of it; the
    one free outside the callback is that of a start whose submission
    was refused.  When the device is not active, the callback frees the
    transfer and its buffer and does not resubmit.  Nothing here makes
    a transfer in flight complete. *)
Theorem buffer_freed_once :
  forall os : list op,
    let s := run os dev_new in
    (forall t : transfer,
        frees t s =
          if is_flying t s then 0%nat
          else if (t <? next_transfer s)%nat then 1%nat else 0%nat)
    /\ (forall (o : op) (t : transfer),
          is_flying t s = true ->
          frees t (step o s) <> frees t s -> delivers t o = true)
    /\ (forall (o : op) (t : transfer),
          is_flying t s = true -> delivers t o = false ->
          is_flying t (step o s) = true)
    /\ (forall (o : op) (t : transfer),
          frees t (step o s) <> frees t s ->
          delivers t o = true
          \/ exists pollfds submit_rc,
               o = OpStart pollfds submit_rc /\ submit_rc <> 0
               /\ t = next_transfer s)
    /\ (forall (c : completion) (s' : state),
          status s' <> SR_ST_ACTIVE ->
          trace (receive_transfer c s')
            = trace s' ++ [EvFreeTransfer (c_transfer c);
                           EvFreeBuffer (c_transfer c)]
          /\ flying (receive_transfer c s') = flying s').
Proof.
  intros os s.
  assert (Hok : heap_ok s) by (apply heap_ok_run, heap_ok_dev_new).
  assert (Hcount : forall t : transfer,
             frees t s =
               if is_flying t s then 0%nat
               else if (t <? next_transfer s)%nat then 1%nat else 0%nat).
  { intros t. specialize (Hok t).
    destruct (is_flying t s) eqn:Hfly.
    - apply is_flying_count in Hfly. unfold transfer in *.
      revert Hok. destruct (t <? next_transfer s)%nat; lia.
    - assert (Hz : count_occ Nat.eq_dec (flying s) t = 0%nat).
      { destruct (count_occ Nat.eq_dec (flying s) t) eqn:E; [reflexivity |].
        assert (Hpos : is_flying t s = true)
          by (apply is_flying_count; unfold transfer in *; lia).
        congruence. }
      unfold transfer in *. rewrite Hz in Hok. exact Hok. }
  split; [exact Hcount |]. split; [| split; [| split]].
  - intros o t Hfly Hch. destruct (delivers t o) eqn:Hd; [reflexivity |].
    destruct (step_untouched o s t Hd)
      as [_ [Heq | (fds & rc & _ & _ & Hnext)]]; [congruence |].
    exfalso. apply is_flying_count in Hfly. specialize (Hok t).
    rewrite Hnext, Nat.ltb_irrefl in Hok. rewrite Hnext in Hfly.
    unfold transfer in *. lia.
  - intros o t Hfly Hd. now apply (step_untouched o s t Hd).
  - intros o t Hch. destruct (delivers t o) eqn:Hd; [auto |].
    destruct (step_untouched o s t Hd) as [_ [Heq | Hst]]; [congruence | auto].
  - intros c s' Hn. rewrite receive_transfer_not_active by assumption.
    destruct (full_packet c); split; reflexivity.
Qed.

Lemma buffer_freed_once_witness :
  frees 0%nat (run ([OpInit; OpOpen open_ok] ++ first_acquisition) dev_new)
    = 1%nat
  /\ flying (receive_transfer (full_ok 0%nat)
              (set_status SR_ST_STOPPING dev_in_callback))
       = flying (set_status SR_ST_STOPPING dev_in_callback).
Proof.
  split.
  - rewrite (proj1 (buffer_freed_once
                      ([OpInit; OpOpen open_ok] ++ first_acquisition))).
    reflexivity.
  - apply (proj2 (proj2 (proj2 (proj2 (buffer_freed_once []))))).
    simpl. discriminate.
Defined.

(** C1 fails on the driver.  After an explicit stop, and likewise
    after the time limit has passed, the tick that finds the device
    stopping removes the event sources, closes the device and sends
    the end packet while the transfer is still in flight: the
    acquisition is over, no source is left for the event loop to call
    [handle_events] on, and the buffer has not been freed.  And where
    the callback does free, as when the last completion arrives in
    that same tick, it frees the transfer before it reads the buffer
    pointer out of it to free the buffer. *)
Lemma buffer_left_unfreed_after_stop :
  (let s := run stopped_early dev_new in
   status s = SR_ST_INACTIVE /\ devhdl s = false
   /\ sent_packets (trace s)
        = [SR_DF_HEADER 1; SR_DF_META_ANALOG 1; SR_DF_END]
   /\ registered_sources (trace s) = []
   /\ flying s = [0%nat] /\ frees 0%nat s = 0%nat)
  /\ (let s := run timed_out_early dev_new in
      status s = SR_ST_INACTIVE /\ devhdl s = false
      /\ sent_packets (trace s)
           = [SR_DF_HEADER 1; SR_DF_META_ANALOG 1; SR_DF_END]
      /\ registered_sources (trace s) = []
      /\ flying s = [0%nat] /\ frees 0%nat s = 0%nat)
  /\ trace (run stopped_with_completion dev_new)
       = [EvUsbOpen 0; EvDetachKernelDriver 0; EvClaimInterface 0;
          EvSend (SR_DF_HEADER 1); EvSend (SR_DF_META_ANALOG 1);
          EvSourceAdd 5 100; EvMalloc 0%nat 14; EvSubmit 0%nat 0;
          EvSourceRemove 5; EvUsbClose; EvSend SR_DF_END;
          EvFreeTransfer 0%nat; EvFreeBuffer 0%nat].
Proof. vm_compute. repeat split. Qed.

(** ** Packets sent to the session *)

Lemma sent_packets_app (a b : list event) :
  sent_packets (a ++ b) = sent_packets a ++ sent_packets b.
Proof.
  induction a as [| e a IH]; simpl; [reflexivity |].
  destruct e; simpl; now rewrite IH.
Qed.

Lemma sent_packets_source_add (fds : list Z) :
  sent_packets (map (fun fd => EvSourceAdd fd 100) fds) = [].
Proof. induction fds; simpl; auto. Qed.

Lemma sent_packets_source_remove (fds : list Z) :
  sent_packets (map EvSourceRemove fds) = [].
Proof. induction fds; simpl; auto. Qed.

Lemma quiet_refl (s : state) : quiet s s.
Proof. unfold quiet. auto. Qed.

Lemma quiet_trans (s1 s2 s3 : state) :
  quiet s1 s2 -> quiet s2 s3 -> quiet s1 s3.
Proof.
  unfold quiet. intros (Ha & Hb & Hc & Hd) (Ha' & Hb' & Hc' & Hd').
  repeat split; try congruence.
  destruct Hd as [Hd | [Hd1 Hd2]], Hd' as [Hd' | [Hd1' Hd2']].
  - left. congruence.
  - right. split; congruence.
  - right. split; congruence.
  - congruence.
Qed.

Lemma quiet_stop (s : state) : quiet s (snd (hw_dev_acquisition_stop s)).
Proof.
  unfold quiet, hw_dev_acquisition_stop.
  destruct s as [p st h lm ls ns et fd fl nx tr].
  destruct p, st; simpl; auto 10.
Qed.

Lemma quiet_callback (c : completion) (s : state) :
  quiet s (receive_transfer c (unfly (c_transfer c) s)).
Proof.
  unfold quiet, receive_transfer, unfly, hw_dev_acquisition_stop.
  destruct s as [p st h lm ls ns et fd fl nx tr]. simpl.
  destruct p, st, (c_status c), (c_actual_length c =? 14), (ls =? 0),
    (wrap_u64 (ns + 1) >=? ls), (c_resubmit_rc c =? 0); simpl;
    rewrite ?sent_packets_app; simpl; rewrite ?app_nil_r; auto 10.
Qed.

Lemma quiet_libusb_handle_events (cs : list completion) :
  forall s : state, quiet s (libusb_handle_events cs s).
Proof.
  induction cs as [| c cs IH]; intros s; simpl; [apply quiet_refl |].
  destruct (is_flying (c_transfer c) s); [| apply IH].
  eapply quiet_trans; [apply quiet_callback | apply IH].
Qed.

Lemma quiet_config_set (h : sr_hwcap) (v t : Z) (s : state) :
  quiet s (snd (hw_dev_config_set h v t s)).
Proof.
  unfold quiet, hw_dev_config_set.
  destruct s as [p st hd lm ls ns et fd fl nx tr].
  destruct p, st, h; simpl; auto 10.
Qed.

Lemma acquisition_packets_quiet (before : list sr_datafeed_packet)
    (s s' : state) :
  acquisition_packets before s -> quiet s s' -> acquisition_packets before s'.
Proof.
  unfold acquisition_packets, quiet.
  intros (Hp & H) (Ha & Hb & Hc & Hd). split; [congruence |].
  destruct H as [(Hst & Hh & Hs) | (Hst & Hs)].
  - left. repeat split; try congruence.
    destruct Hd as [Hd | [_ Hd]]; [rewrite Hd; exact Hst | now right].
  - right. split; [| congruence].
    destruct Hd as [Hd | [Hd _]]; congruence.
Qed.

Lemma acquisition_packets_tick (before : list sr_datafeed_packet)
    (mono_us : Z) (cs : list completion) (s : state) :
  acquisition_packets before s ->
  acquisition_packets before (handle_events mono_us cs s).
Proof.
  intros H. unfold handle_events.
  set (s1 := if negb (limit_msec s =? 0) then _ else s).
  assert (H1 : acquisition_packets before s1).
  { apply (acquisition_packets_quiet before s); [exact H |].
    subst s1. repeat break_if; auto using quiet_refl, quiet_stop. }
  clearbody s1. clear H.
  eapply acquisition_packets_quiet; [| apply quiet_libusb_handle_events].
  destruct (status_eqb (status s1) SR_ST_STOPPING) eqn:Est; [| exact H1].
  destruct H1 as (Hp & [(Hst & Hh & Hs) | (Hst & Hs)]).
  - unfold acquisition_packets, hw_dev_close. simpl. rewrite Hp, Hh. simpl.
    split; [exact Hp |]. right. split; [reflexivity |].
    rewrite !sent_packets_app, sent_packets_source_remove, Hs. simpl.
    rewrite <- !app_assoc. reflexivity.
  - rewrite Hst in Est. discriminate.
Qed.

Lemma acquisition_packets_run (before : list sr_datafeed_packet)
    (os : list op) :
  forall s : state,
    forallb acquisition_call os = true ->
    acquisition_packets before s -> acquisition_packets before (run os s).
Proof.
  induction os as [| o os IH]; intros s Hos H; simpl in *; [exact H |].
  apply andb_true_iff in Hos. destruct Hos as [Ho Hos].
  apply IH; [exact Hos |].
  destruct o; try discriminate; unfold step, call; simpl.
  - eapply acquisition_packets_quiet; [exact H | apply quiet_config_set].
  - eapply acquisition_packets_quiet; [exact H | apply quiet_stop].
  - now apply acquisition_packets_tick.
Qed.

(** C8: a start on an active, open device sends the header packet and
    then the metadata packet announcing one analog probe, both before
    it registers the sources, allocates and submits the transfer.
    Through any following configuration calls, stop requests and ticks
    the packets sent for this acquisition are these two, followed by
    the end packet exactly when the device has become inactive again;
    the end packet is sent by the tick that finds the device stopping
    and closes it. *)
Theorem session_packets_in_order :
  forall (pollfds : list Z) (submit_rc : Z) (s : state) (os : list op),
    di_priv s = true -> status s = SR_ST_ACTIVE -> devhdl s = true ->
    forallb acquisition_call os = true ->
    let s0 := snd (hw_dev_acquisition_start pollfds submit_rc s) in
    let s' := run os s0 in
    trace s0
      = trace s
        ++ [EvSend (SR_DF_HEADER 1); EvSend (SR_DF_META_ANALOG 1)]
        ++ map (fun fd => EvSourceAdd fd 100) pollfds
        ++ [EvMalloc (next_transfer s) 14;
            EvSubmit (next_transfer s) submit_rc]
        ++ (if submit_rc =? 0 then []
            else [EvFreeTransfer (next_transfer s);
                  EvFreeBuffer (next_transfer s)])
    /\ sent_packets (trace s')
         = sent_packets (trace s)
           ++ [SR_DF_HEADER 1; SR_DF_META_ANALOG 1]
           ++ (if status_eqb (status s') SR_ST_INACTIVE
               then [SR_DF_END] else [])
    /\ (status s' = SR_ST_STOPPING ->
        forall (mono_us : Z) (cs : list completion),
          status (handle_events mono_us cs s') = SR_ST_INACTIVE
          /\ sent_packets (trace (handle_events mono_us cs s'))
               = sent_packets (trace s') ++ [SR_DF_END]).
Proof.
  intros pollfds submit_rc s os Hp Ha Hh Hos s0 s'.
  assert (Ht : trace s0
      = trace s
        ++ [EvSend (SR_DF_HEADER 1); EvSend (SR_DF_META_ANALOG 1)]
        ++ map (fun fd => EvSourceAdd fd 100) pollfds
        ++ [EvMalloc (next_transfer s) 14;
            EvSubmit (next_transfer s) submit_rc]
        ++ (if submit_rc =? 0 then []
            else [EvFreeTransfer (next_transfer s);
                  EvFreeBuffer (next_transfer s)])).
  { subst s0. unfold hw_dev_acquisition_start. rewrite Hp. simpl.
    destruct (Z.eqb_spec submit_rc 0) as [E | E]; simpl;
      rewrite <- ?app_assoc; simpl; [subst submit_rc |]; reflexivity. }
  assert (H0 : acquisition_packets (sent_packets (trace s)) s0).
  { unfold acquisition_packets.
    assert (Hs0 : di_priv s0 = true /\ status s0 = SR_ST_ACTIVE
                  /\ devhdl s0 = true).
    { subst s0. unfold hw_dev_acquisition_start. rewrite Hp. simpl.
      break_if; simpl; auto. }
    destruct Hs0 as (Hp0 & Ha0 & Hh0).
    split; [exact Hp0 |]. left. repeat split; auto.
    rewrite Ht, !sent_packets_app, sent_packets_source_add. simpl.
    destruct (submit_rc =? 0); reflexivity. }
  assert (H' : acquisition_packets (sent_packets (trace s)) s')
    by (now apply acquisition_packets_run).
  assert (Hfin : forall s1,
             acquisition_packets (sent_packets (trace s)) s1 ->
             sent_packets (trace s1)
               = sent_packets (trace s)
                 ++ [SR_DF_HEADER 1; SR_DF_META_ANALOG 1]
                 ++ (if status_eqb (status s1) SR_ST_INACTIVE
                     then [SR_DF_END] else [])).
  { intros s1 (_ & [([Hst | Hst] & _ & Hs) | (Hst & Hs)]);
      rewrite Hs, Hst; reflexivity. }
  split; [exact Ht |]. split; [now apply Hfin |].
  intros Hst mono_us cs.
  pose proof (acquisition_packets_tick _ mono_us cs s' H') as Htick.
  assert (Hin : status (handle_events mono_us cs s') = SR_ST_INACTIVE).
  { unfold handle_events.
    set (s1 := if negb (limit_msec s' =? 0) then _ else s').
    assert (E1 : s1 = s').
    { subst s1. repeat break_if; try reflexivity.
      apply stop_not_active. rewrite Hst. discriminate. }
    rewrite E1, Hst. simpl.
    match goal with
    | |- status (libusb_handle_events cs ?s2) = _ =>
        destruct (quiet_libusb_handle_events cs s2) as (_ & _ & _ & Hq);
        assert (E2 : status s2 = SR_ST_INACTIVE)
    end.
    { destruct H' as (Hp' & [(_ & Hh' & _) | (Hc & _)]); [| congruence].
      unfold hw_dev_close. simpl. rewrite Hp', Hh'. reflexivity. }
    destruct Hq as [Hq | [Hq _]]; congruence. }
  split; [exact Hin |].
  rewrite (Hfin _ Htick), (Hfin _ H'), Hin, Hst. simpl.
  rewrite <- !app_assoc. reflexivity.
Qed.

Lemma session_packets_in_order_witness :
  sent_packets
    (trace (run [OpTick 0 [full_ok 0%nat]; OpStop; OpTick 0 []]
                (snd (hw_dev_acquisition_start [5] 0 dev_active))))
    = [SR_DF_HEADER 1; SR_DF_META_ANALOG 1; SR_DF_END].
Proof.
  exact (proj1 (proj2
           (session_packets_in_order [5] 0 dev_active
              [OpTick 0 [full_ok 0%nat]; OpStop; OpTick 0 []]
              eq_refl eq_refl eq_refl eq_refl))).
Defined.

(** ** Zero budgets *)

Lemma set_end_time_same (s : state) : set_end_time (end_time s) s = s.
Proof. now destruct s. Qed.

(** Nothing but the deadline check of [handle_events] reads the
    deadline: every other piece of code commutes with a change of it. *)
Lemma stop_set_end_time (e : Z) (s : state) :
  hw_dev_acquisition_stop (set_end_time e s)
    = (fst (hw_dev_acquisition_stop s),
       set_end_time e (snd (hw_dev_acquisition_stop s))).
Proof.
  unfold hw_dev_acquisition_stop.
  destruct s as [p st h lm ls ns et fd fl nx tr]. now destruct p, st.
Qed.

Lemma close_set_end_time (e : Z) (s : state) :
  hw_dev_close (set_end_time e s)
    = (fst (hw_dev_close s), set_end_time e (snd (hw_dev_close s))).
Proof.
  unfold hw_dev_close.
  destruct s as [p st h lm ls ns et fd fl nx tr]. now destruct p, h.
Qed.

Lemma open_set_end_time (e : Z) (env : open_env) (s : state) :
  hw_dev_open env (set_end_time e s)
    = (fst (hw_dev_open env s), set_end_time e (snd (hw_dev_open env s))).
Proof.
  unfold hw_dev_open.
  destruct s as [p st h lm ls ns et fd fl nx tr]. simpl.
  destruct p, (dev_found env), (open_rc env =? 0),
    (kernel_driver_active env =? 1), (detach_rc env <? 0),
    (claim_rc env =? 0); reflexivity.
Qed.

Lemma start_set_end_time (e : Z) (fds : list Z) (rc : Z) (s : state) :
  hw_dev_acquisition_start fds rc (set_end_time e s)
    = (fst (hw_dev_acquisition_start fds rc s),
       set_end_time e (snd (hw_dev_acquisition_start fds rc s))).
Proof.
  unfold hw_dev_acquisition_start.
  destruct s as [p st h lm ls ns et fd fl nx tr]. simpl.
  destruct p, (rc =? 0); reflexivity.
Qed.

Lemma config_set_set_end_time (e : Z) (h : sr_hwcap) (v t : Z) (s : state) :
  h <> SR_HWCAP_LIMIT_MSEC ->
  hw_dev_config_set h v t (set_end_time e s)
    = (fst (hw_dev_config_set h v t s),
       set_end_time e (snd (hw_dev_config_set h v t s))).
Proof.
  intros Hh. unfold hw_dev_config_set.
  destruct s as [p st hd lm ls ns et fd fl nx tr]. simpl.
  destruct p, st, h; try reflexivity; now elim Hh.
Qed.

Lemma config_set_msec_set_end_time (e v t : Z) (s : state) :
  di_priv s = true -> status s = SR_ST_ACTIVE ->
  hw_dev_config_set SR_HWCAP_LIMIT_MSEC v t (set_end_time e s)
    = hw_dev_config_set SR_HWCAP_LIMIT_MSEC v t s.
Proof.
  intros Hp Ha. unfold hw_dev_config_set.
  destruct s as [p st hd lm ls ns et fd fl nx tr]. simpl in *.
  subst. reflexivity.
Qed.

Lemma receive_transfer_set_end_time (e : Z) (c : completion) (s : state) :
  receive_transfer c (set_end_time e s)
    = set_end_time e (receive_transfer c s).
Proof.
  unfold receive_transfer, hw_dev_acquisition_stop.
  destruct s as [p st h lm ls ns et fd fl nx tr]. simpl.
  destruct p, st, (c_status c), (c_actual_length c =? 14), (ls =? 0),
    (wrap_u64 (ns + 1) >=? ls), (c_resubmit_rc c =? 0); reflexivity.
Qed.

Lemma libusb_handle_events_set_end_time (e : Z) (cs : list completion) :
  forall s : state,
    libusb_handle_events cs (set_end_time e s)
      = set_end_time e (libusb_handle_events cs s).
Proof.
  induction cs as [| c cs IH]; intros s; simpl; [reflexivity |].
  change (is_flying (c_transfer c) (set_end_time e s))
    with (is_flying (c_transfer c) s).
  destruct (is_flying (c_transfer c) s); [| apply IH].
  change (unfly (c_transfer c) (set_end_time e s))
    with (set_end_time e (unfly (c_transfer c) s)).
  rewrite receive_transfer_set_end_time. apply IH.
Qed.

Lemma handle_events_set_end_time (e t : Z) (cs : list completion)
    (s : state) :
  limit_msec s = 0 ->
  handle_events t cs (set_end_time e s)
    = set_end_time e (handle_events t cs s).
Proof.
  intros Hl. unfold handle_events.
  change (limit_msec (set_end_time e s)) with (limit_msec s).
  rewrite Hl. cbn [Z.eqb negb].
  change (status (set_end_time e s)) with (status s).
  destruct (status_eqb (status s) SR_ST_STOPPING).
  - change (usbfd (set_end_time e s)) with (usbfd s).
    change (emit (map EvSourceRemove (fds_until_sentinel (usbfd s)))
                 (set_end_time e s))
      with (set_end_time e
              (emit (map EvSourceRemove (fds_until_sentinel (usbfd s))) s)).
    rewrite close_set_end_time. cbn [snd].
    rewrite <- libusb_handle_events_set_end_time. reflexivity.
  - apply libusb_handle_events_set_end_time.
Qed.

(** No call but the storing of a time limit changes the time limit. *)
Lemma limit_msec_callback (c : completion) (s : state) :
  limit_msec (receive_transfer c s) = limit_msec s.
Proof.
  unfold receive_transfer, hw_dev_acquisition_stop.
  destruct s as [p st h lm ls ns et fd fl nx tr]. simpl.
  destruct p, st, (c_status c), (c_actual_length c =? 14), (ls =? 0),
    (wrap_u64 (ns + 1) >=? ls), (c_resubmit_rc c =? 0); reflexivity.
Qed.

Lemma limit_msec_libusb_handle_events (cs : list completion) :
  forall s : state, limit_msec (libusb_handle_events cs s) = limit_msec s.
Proof.
  induction cs as [| c cs IH]; intros s; simpl; [reflexivity |].
  destruct (is_flying (c_transfer c) s); rewrite IH; [| reflexivity].
  now rewrite limit_msec_callback.
Qed.

Lemma limit_msec_step (o : op) (s : state) :
  (forall v t, o <> OpConfigSet SR_HWCAP_LIMIT_MSEC v t) ->
  limit_msec (step o s) = limit_msec s.
Proof.
  intros Ho. destruct o; unfold step, call; cbn [snd].
  - reflexivity.
  - unfold hw_dev_open. repeat (break_if; simpl); reflexivity.
  - unfold hw_dev_close. repeat (break_if; simpl); reflexivity.
  - unfold hw_dev_config_set.
    destruct hwcap; repeat (break_if; simpl); try reflexivity.
    now elim (Ho value mono_us).
  - unfold hw_dev_acquisition_start. repeat (break_if; simpl); reflexivity.
  - unfold hw_dev_acquisition_stop. repeat (break_if; simpl); reflexivity.
  - unfold handle_events. rewrite limit_msec_libusb_handle_events.
    unfold hw_dev_acquisition_stop, hw_dev_close.
    repeat (break_if; simpl); reflexivity.
Qed.

Lemma sr_hwcap_msec_dec (h : sr_hwcap) :
  {h = SR_HWCAP_LIMIT_MSEC} + {h <> SR_HWCAP_LIMIT_MSEC}.
Proof. destruct h; (left; reflexivity) || (right; discriminate). Qed.

Lemma call_deadline_blind (o : op) (e : Z) (s : state) :
  limit_msec s = 0 ->
  fst (call o (set_end_time e s)) = fst (call o s)
  /\ (snd (call o (set_end_time e s)) = snd (call o s)
      \/ (limit_msec (step o s) = 0
          /\ snd (call o (set_end_time e s))
               = set_end_time e (snd (call o s)))).
Proof.
  intros Hl.
  assert (Hcomm : forall (A : Type) (f : state -> A * state),
             f (set_end_time e s) = (fst (f s), set_end_time e (snd (f s))) ->
             fst (f (set_end_time e s)) = fst (f s)
             /\ snd (f (set_end_time e s)) = set_end_time e (snd (f s))).
  { intros A f ->. auto. }
  destruct o; unfold call; cbn [fst snd].
  - split; [reflexivity |]. right. split; [exact Hl | reflexivity].
  - destruct (Hcomm _ _ (open_set_end_time e e0 s)) as [-> ->].
    split; [reflexivity |]. right. split; [| reflexivity].
    rewrite <- Hl. apply (limit_msec_step (OpOpen e0)). discriminate.
  - destruct (Hcomm _ _ (close_set_end_time e s)) as [-> ->].
    split; [reflexivity |]. right. split; [| reflexivity].
    rewrite <- Hl. apply (limit_msec_step OpClose). discriminate.
  - destruct (sr_hwcap_msec_dec hwcap) as [-> | Hh].
    + destruct (di_priv s) eqn:Hp;
        [destruct (status_eqb (status s) SR_ST_ACTIVE) eqn:Ha |].
      * assert (Ha' : status s = SR_ST_ACTIVE)
          by (destruct (status s); try discriminate; reflexivity).
        rewrite (config_set_msec_set_end_time e value mono_us s Hp Ha').
        split; [reflexivity | left; reflexivity].
      * unfold step, call, hw_dev_config_set. simpl. rewrite Hp, Ha. simpl.
        split; [reflexivity |]. right. auto.
      * unfold step, call, hw_dev_config_set. simpl. rewrite Hp. simpl.
        split; [reflexivity |]. right. auto.
    + destruct (Hcomm _ _ (config_set_set_end_time e hwcap value mono_us s Hh))
        as [-> ->].
      split; [reflexivity |]. right. split; [| reflexivity].
      rewrite <- Hl. apply (limit_msec_step (OpConfigSet hwcap value mono_us)).
      congruence.
  - destruct (Hcomm _ _ (start_set_end_time e pollfds submit_rc s)) as [-> ->].
    split; [reflexivity |]. right. split; [| reflexivity].
    rewrite <- Hl. apply (limit_msec_step (OpStart pollfds submit_rc)).
    discriminate.
  - destruct (Hcomm _ _ (stop_set_end_time e s)) as [-> ->].
    split; [reflexivity |]. right. split; [| reflexivity].
    rewrite <- Hl. apply (limit_msec_step OpStop). discriminate.
  - split; [reflexivity |]. right. split.
    + rewrite <- Hl. apply (limit_msec_step (OpTick mono_us cs)). discriminate.
    + now apply handle_events_set_end_time.
Qed.

Lemma run_deadline_blind (os : list op) :
  forall (s : state) (e : Z),
    limit_msec s = 0 ->
    run_rets os (set_end_time e s) = run_rets os s
    /\ exists e', run os (set_end_time e s) = set_end_time e' (run os s).
Proof.
  induction os as [| o os IH]; intros s e Hl; simpl.
  - split; [reflexivity |]. now exists e.
  - destruct (call_deadline_blind o e s Hl) as [Hr [Hs | [Hl' Hs]]];
      unfold step; rewrite Hr, Hs.
    + split; [reflexivity |].
      exists (end_time (run os (snd (call o s)))).
      now rewrite set_end_time_same.
    + destruct (IH (snd (call o s)) e Hl') as [IH1 IH2].
      now rewrite IH1.
Qed.

Lemma benign_callback (c : completion) (s : state) :
  limit_samples s = 0 -> status s = SR_ST_ACTIVE -> benign c = true ->
  limit_samples (receive_transfer c s) = 0
  /\ status (receive_transfer c s) = SR_ST_ACTIVE.
Proof.
  intros Hl Ha Hb. unfold benign in Hb. apply andb_true_iff in Hb.
  destruct Hb as [Hrc Hst]. unfold receive_transfer.
  destruct s as [p st h lm ls ns et fd fl nx tr]. simpl in *. subst.
  rewrite Hrc.
  destruct (c_status c); try discriminate;
    destruct (c_actual_length c =? 14); simpl; auto.
Qed.

Lemma benign_libusb_handle_events (cs : list completion) :
  forall s : state,
    limit_samples s = 0 -> status s = SR_ST_ACTIVE ->
    forallb benign cs = true ->
    limit_samples (libusb_handle_events cs s) = 0
    /\ status (libusb_handle_events cs s) = SR_ST_ACTIVE.
Proof.
  induction cs as [| c cs IH]; intros s Hl Ha Hb; simpl in *; [auto |].
  apply andb_true_iff in Hb. destruct Hb as [Hc Hb].
  destruct (is_flying (c_transfer c) s); [| now apply IH].
  destruct (benign_callback c (unfly (c_transfer c) s) Hl Ha Hc) as [Hl' Ha'].
  now apply IH.
Qed.

Lemma benign_handle_events (t : Z) (cs : list completion) (s : state) :
  limit_msec s = 0 -> limit_samples s = 0 -> status s = SR_ST_ACTIVE ->
  forallb benign cs = true ->
  handle_events t cs s = libusb_handle_events cs s
  /\ limit_msec (handle_events t cs s) = 0
  /\ limit_samples (handle_events t cs s) = 0
  /\ status (handle_events t cs s) = SR_ST_ACTIVE.
Proof.
  intros Hm Hl Ha Hb.
  assert (E : handle_events t cs s = libusb_handle_events cs s).
  { unfold handle_events. rewrite Hm. simpl. rewrite Ha. reflexivity. }
  rewrite E, limit_msec_libusb_handle_events.
  destruct (benign_libusb_handle_events cs s Hl Ha Hb). auto.
Qed.

Lemma benign_run (os : list op) :
  forall s : state,
    limit_msec s = 0 -> limit_samples s = 0 -> status s = SR_ST_ACTIVE ->
    forallb benign_tick os = true ->
    status (run os s) = SR_ST_ACTIVE
    /\ sent_packets (trace (run os s)) = sent_packets (trace s).
Proof.
  induction os as [| o os IH]; intros s Hm Hl Ha Hb; simpl in *; [auto |].
  apply andb_true_iff in Hb. destruct Hb as [Ho Hb].
  destruct o; try discriminate. unfold step, call. cbn [snd].
  simpl in Ho.
  destruct (benign_handle_events mono_us cs s Hm Hl Ha Ho)
    as (E & Hm' & Hl' & Ha').
  destruct (IH (handle_events mono_us cs s) Hm' Hl' Ha' Hb) as [Hst Hp].
  split; [exact Hst |]. rewrite Hp, E.
  now destruct (quiet_libusb_handle_events cs s) as (_ & _ & Hq & _).
Qed.

(** C9: a stored limit of zero is the value of a limit never set.  On
    an active device whose limits are unset, storing a sample limit of
    zero changes nothing at all, and storing a time limit of zero
    changes only the deadline, which no later call lets show: from
    there every run of calls returns the same values and reaches the
    same state up to the deadline.  With a zero time limit the tick
    does not compare the clock with the deadline, and with a zero
    sample limit the callback does not compare the counter with it, so
    that ticks whose completions are no stop trigger themselves leave
    the device active and send no end packet. *)
Theorem zero_budget_is_unset :
  forall (s : state) (mono_us : Z),
    di_priv s = true -> status s = SR_ST_ACTIVE ->
    (limit_samples s = 0 ->
     hw_dev_config_set SR_HWCAP_LIMIT_SAMPLES 0 mono_us s = (SR_OK, s))
    /\ (limit_msec s = 0 ->
        let s0 := snd (hw_dev_config_set SR_HWCAP_LIMIT_MSEC 0 mono_us s) in
        fst (hw_dev_config_set SR_HWCAP_LIMIT_MSEC 0 mono_us s) = SR_OK
        /\ limit_msec s0 = 0
        /\ forall os : list op,
             run_rets os s0 = run_rets os s
             /\ exists e : Z, run os s0 = set_end_time e (run os s))
    /\ (limit_msec s = 0 ->
        forall (t : Z) (cs : list completion),
          handle_events t cs s = libusb_handle_events cs s)
    /\ (limit_samples s = 0 ->
        forall c : completion,
          benign c = true -> status (receive_transfer c s) = SR_ST_ACTIVE)
    /\ (limit_msec s = 0 -> limit_samples s = 0 ->
        forall os : list op,
          forallb benign_tick os = true ->
          status (run os s) = SR_ST_ACTIVE
          /\ sent_packets (trace (run os s)) = sent_packets (trace s)).
Proof.
  intros s mono_us Hp Ha.
  split; [intros Hl | split; [intros Hm | split; [intros Hm |
    split; [intros Hl | intros Hm Hl]]]].
  - unfold hw_dev_config_set. rewrite Hp, Ha. simpl.
    destruct s; simpl in *; subst; reflexivity.
  - assert (E : hw_dev_config_set SR_HWCAP_LIMIT_MSEC 0 mono_us s
                = (SR_OK, set_end_time (wrap_s64 (Z.quot mono_us 1000 + 0)) s)).
    { unfold hw_dev_config_set. rewrite Hp, Ha. simpl.
      destruct s; simpl in *; subst; reflexivity. }
    rewrite E. cbn [fst snd]. split; [reflexivity |]. split; [exact Hm |].
    intros os. now apply run_deadline_blind.
  - intros t cs. unfold handle_events. rewrite Hm. simpl. rewrite Ha.
    reflexivity.
  - intros c Hc. now apply benign_callback.
  - intros os Hos. now apply benign_run.
Qed.

Lemma zero_budget_is_unset_witness :
  hw_dev_config_set SR_HWCAP_LIMIT_SAMPLES 0 1000000 dev_running
    = (SR_OK, dev_running)
  /\ status (run [OpTick 5000000 [full_ok 0%nat]] dev_running) = SR_ST_ACTIVE.
Proof.
  destruct (zero_budget_is_unset dev_running 1000000 eq_refl eq_refl)
    as (H1 & _ & _ & _ & H5).
  split; [exact (H1 eq_refl) |].
  apply (H5 eq_refl eq_refl [OpTick 5000000 [full_ok 0%nat]]). reflexivity.
Defined.

(** ** A scenario of the specification *)

(** A sample budget of 3 and three full packets: the counter goes 1, 2,
    3; the third completion requests the stop and frees the transfer
    without resubmitting; the next tick closes the device and sends the
    end packet, with no transfer left in flight. *)
Example budget_of_three :
  let acq := [ OpConfigSet SR_HWCAP_LIMIT_SAMPLES 3 0; OpStart [5] 0 ] in
  let tick := OpTick 0 [full_ok 0%nat] in
  map (fun os => num_samples (run (acq ++ os) dev_active))
      [[tick]; [tick; tick]; [tick; tick; tick]] = [1; 2; 3]
  /\ map (fun os => status (run (acq ++ os) dev_active))
         [[tick]; [tick; tick]; [tick; tick; tick];
          [tick; tick; tick; OpTick 0 []]]
       = [SR_ST_ACTIVE; SR_ST_ACTIVE; SR_ST_STOPPING; SR_ST_INACTIVE]
  /\ flying (run (acq ++ [tick; tick; tick]) dev_active) = []
  /\ sent_packets
       (trace (run (acq ++ [tick; tick; tick; OpTick 0 []]) dev_active))
       = [SR_DF_HEADER 1; SR_DF_META_ANALOG 1; SR_DF_END].
Proof. vm_compute. repeat split. Qed.

(** ** Opening and closing *)



(** X2: closing twice is closing once.  Under an initialised driver
    [hw_dev_close] leaves no handle; a device that had one becomes
    inactive, with the one release-and-close call added to the trace,
    and a device that had none is left as it is.  A close cancels and
    frees nothing: the transfers in flight stay in flight, and limits,
    counter and deadline are kept. *)
Theorem hw_dev_close_idempotent :
  forall s : state,
    let s' := snd (hw_dev_close s) in
    hw_dev_close s' = hw_dev_close s
    /\ (di_priv s = true ->
        fst (hw_dev_close s) = SR_OK /\ devhdl s' = false
        /\ (devhdl s = true ->
            status s' = SR_ST_INACTIVE /\ trace s' = trace s ++ [EvUsbClose])
        /\ (devhdl s = false -> s' = s))
    /\ (di_priv s = false -> hw_dev_close s = (SR_ERR, s))
    /\ flying s' = flying s
    /\ freed_buffers (trace s') = freed_buffers (trace s)
    /\ limit_msec s' = limit_msec s
    /\ limit_samples s' = limit_samples s
    /\ num_samples s' = num_samples s
    /\ end_time s' = end_time s.
Proof.
  intros s s'. subst s'. unfold hw_dev_close.
  destruct s as [p st h lm ls ns et fd fl nx tr].
  destruct p, h; simpl; rewrite ?freed_buffers_app, ?app_nil_r;
    repeat split; intros; try discriminate; auto.
Qed.

Lemma hw_dev_close_idempotent_witness :
  status (snd (hw_dev_close dev_running)) = SR_ST_INACTIVE
  /\ flying (snd (hw_dev_close dev_running)) = [0%nat].
Proof.
  destruct (hw_dev_close_idempotent dev_running)
    as (_ & Hc & _ & Hf & _).
  destruct (Hc eq_refl) as (_ & _ & Hh & _).
  split; [exact (proj1 (Hh eq_refl)) | exact Hf].
Defined.

(** X3: in every state reached from a fresh device, a device that is
    active or stopping has its handle, under an initialised driver. *)
Lemma handle_kept_quiet (s s' : state) :
  quiet s s' ->
  status s = SR_ST_INACTIVE \/ (devhdl s = true /\ di_priv s = true) ->
  status s' = SR_ST_INACTIVE \/ (devhdl s' = true /\ di_priv s' = true).
Proof.
  intros (Hp & Hh & _ & Hst) [Hin | [H1 H2]].
  - left. destruct Hst as [Hst | [Hst _]]; congruence.
  - right. split; congruence.
Qed.

Lemma handle_kept_step (o : op) (s : state) :
  status s = SR_ST_INACTIVE \/ (devhdl s = true /\ di_priv s = true) ->
  status (step o s) = SR_ST_INACTIVE
  \/ (devhdl (step o s) = true /\ di_priv (step o s) = true).
Proof.
  intros H. destruct o; unfold step, call; cbn [snd].
  - destruct H as [H | [H1 H2]]; [left | right]; auto.
  - unfold hw_dev_open.
    destruct s as [p st h lm ls ns et fd fl nx tr]. simpl in *.
    destruct p, (dev_found e), (open_rc e =? 0),
      (kernel_driver_active e =? 1), (detach_rc e <? 0),
      (claim_rc e =? 0); simpl in *; auto;
      destruct H as [H | [H1 H2]]; auto.
  - unfold hw_dev_close.
    destruct s as [p st h lm ls ns et fd fl nx tr]. simpl in *.
    destruct p, h; simpl; auto.
  - apply (handle_kept_quiet s); [apply quiet_config_set | exact H].
  - unfold hw_dev_acquisition_start.
    destruct s as [p st h lm ls ns et fd fl nx tr]. simpl in *.
    destruct p, (submit_rc =? 0); simpl; exact H.
  - apply (handle_kept_quiet s); [apply quiet_stop | exact H].
  - unfold handle_events.
    set (s1 := if negb (limit_msec s =? 0) then _ else s).
    assert (H1 : status s1 = SR_ST_INACTIVE
                 \/ (devhdl s1 = true /\ di_priv s1 = true)).
    { apply (handle_kept_quiet s); [| exact H].
      subst s1. repeat break_if; auto using quiet_refl, quiet_stop. }
    clearbody s1.
    eapply handle_kept_quiet; [apply quiet_libusb_handle_events |].
    destruct (status_eqb (status s1) SR_ST_STOPPING) eqn:Est; [| exact H1].
    destruct H1 as [H1 | [Hh Hp]].
    + rewrite H1 in Est. discriminate.
    + left. unfold hw_dev_close. simpl. rewrite Hp, Hh. reflexivity.
Qed.

Lemma handle_kept_run (os : list op) :
  forall s : state,
    status s = SR_ST_INACTIVE \/ (devhdl s = true /\ di_priv s = true) ->
    status (run os s) = SR_ST_INACTIVE
    \/ (devhdl (run os s) = true /\ di_priv (run os s) = true).
Proof.
  induction os as [| o os IH]; intros s H; simpl; [exact H |].
  apply IH. now apply handle_kept_step.
Qed.

Theorem handle_while_running :
  forall os : list op,
    let s := run os dev_new in
    status s <> SR_ST_INACTIVE -> devhdl s = true /\ di_priv s = true.
Proof.
  intros os s Hst.
  assert (H : status s = SR_ST_INACTIVE
              \/ (devhdl s = true /\ di_priv s = true)).
  { apply handle_kept_run. left. reflexivity. }
  destruct H as [H | H]; [contradiction | exact H].
Qed.

Lemma handle_while_running_witness :
  devhdl (run [OpInit; OpOpen open_ok; OpStart [5] 0; OpStop] dev_new) = true.
Proof.
  apply (handle_while_running [OpInit; OpOpen open_ok; OpStart [5] 0; OpStop]).
  simpl. discriminate.
Defined.

(** ** One transfer per acquisition *)

Lemma one_transfer_callback (c : completion) (s : state) :
  di_priv s = true -> flying s = [] ->
  one_transfer (c_transfer c) (receive_transfer c s).
Proof.
  intros Hp Hf. unfold one_transfer, receive_transfer, hw_dev_acquisition_stop.
  destruct s as [p st h lm ls ns et fd fl nx tr]. simpl in *. subst.
  destruct st, (c_status c), (c_actual_length c =? 14), (ls =? 0),
    (wrap_u64 (ns + 1) >=? ls), (c_resubmit_rc c =? 0); simpl;
    (split; [reflexivity | pick_branch]).
Qed.

Lemma one_transfer_same (t : transfer) (s s' : state) :
  di_priv s' = di_priv s -> flying s' = flying s ->
  (status s' = status s \/ status s' <> SR_ST_ACTIVE) ->
  one_transfer t s -> one_transfer t s'.
Proof.
  unfold one_transfer. intros Hp Hf Hst (Hd & H).
  rewrite Hp, Hf. split; [exact Hd |].
  destruct Hst as [Hst | Hst].
  - rewrite Hst. exact H.
  - right. split; [exact Hst |].
    destruct H as [[_ H] | [_ H]]; auto.
Qed.

Lemma one_transfer_stop (t : transfer) (s : state) :
  one_transfer t s -> one_transfer t (snd (hw_dev_acquisition_stop s)).
Proof.
  apply one_transfer_same; unfold hw_dev_acquisition_stop;
    destruct s as [p st h lm ls ns et fd fl nx tr];
    destruct p, st; simpl; auto; right; discriminate.
Qed.

Lemma is_flying_single (u t : transfer) (s : state) :
  flying s = [t] \/ flying s = [] -> is_flying u s = true ->
  u = t /\ flying s = [t] /\ flying (unfly u s) = [].
Proof.
  unfold is_flying, unfly. intros [Hf | Hf] Hu; rewrite Hf in *; simpl in *.
  - rewrite orb_false_r in Hu. apply Nat.eqb_eq in Hu. subst u.
    rewrite Nat.eqb_refl. auto.
  - discriminate.
Qed.

Lemma one_transfer_libusb_handle_events (t : transfer)
    (cs : list completion) :
  forall s : state,
    one_transfer t s -> one_transfer t (libusb_handle_events cs s).
Proof.
  induction cs as [| c cs IH]; intros s H; simpl; [exact H |].
  destruct (is_flying (c_transfer c) s) eqn:Hfly; [| now apply IH].
  apply IH. destruct H as (Hp & H).
  assert (Hf : flying s = [t] \/ flying s = [])
    by (destruct H as [[_ H] | [_ H]]; auto).
  destruct (is_flying_single _ _ _ Hf Hfly) as (Hu & _ & Hun).
  rewrite <- Hu. apply one_transfer_callback; [exact Hp | exact Hun].
Qed.

Lemma one_transfer_handle_events (t : transfer) (mono_us : Z)
    (cs : list completion) (s : state) :
  one_transfer t s -> one_transfer t (handle_events mono_us cs s).
Proof.
  intros H. unfold handle_events.
  apply one_transfer_libusb_handle_events.
  set (s1 := if negb (limit_msec s =? 0) then _ else s).
  assert (H1 : one_transfer t s1).
  { subst s1. repeat break_if; auto using one_transfer_stop. }
  clearbody s1.
  destruct (status_eqb (status s1) SR_ST_STOPPING) eqn:Est; [| exact H1].
  revert H1. apply one_transfer_same.
  - unfold hw_dev_close. simpl. repeat (break_if; simpl); reflexivity.
  - unfold hw_dev_close. simpl. repeat (break_if; simpl); reflexivity.
  - right. unfold hw_dev_close. simpl.
    destruct (status s1) eqn:E; try discriminate.
    repeat (break_if; simpl); try rewrite E; discriminate.
Qed.

Lemma one_transfer_run (t : transfer) (os : list op) :
  forall s : state,
    forallb acquisition_call os = true ->
    one_transfer t s -> one_transfer t (run os s).
Proof.
  induction os as [| o os IH]; intros s Hos H; simpl in *; [exact H |].
  apply andb_true_iff in Hos. destruct Hos as [Ho Hos].
  apply IH; [exact Hos |].
  destruct o; try discriminate; unfold step, call; cbn [snd].
  - revert H. apply one_transfer_same; unfold hw_dev_config_set;
      destruct s as [p st h lm ls ns et fd fl nx tr];
      destruct p, st, hwcap; simpl; auto.
  - now apply one_transfer_stop.
  - now apply one_transfer_handle_events.
Qed.

(** X4: after an accepted start on an active device with nothing in
    flight, through any configuration calls, stop requests and ticks
    the only transfer ever in flight is the one this start submitted:
    it is in flight whenever the device is active, and at no time is
    there a second one. *)
Theorem single_transfer_in_flight :
  forall (pollfds : list Z) (s : state) (os : list op),
    di_priv s = true -> status s = SR_ST_ACTIVE -> flying s = [] ->
    forallb acquisition_call os = true ->
    let s' := run os (snd (hw_dev_acquisition_start pollfds 0 s)) in
    (status s' = SR_ST_ACTIVE -> flying s' = [next_transfer s])
    /\ (flying s' = [next_transfer s] \/ flying s' = [])
    /\ (forall u : transfer, is_flying u s' = true -> u = next_transfer s).
Proof.
  intros pollfds s os Hp Ha Hf Hos s'.
  assert (H0 : one_transfer (next_transfer s)
                 (snd (hw_dev_acquisition_start pollfds 0 s))).
  { unfold one_transfer, hw_dev_acquisition_start. rewrite Hp. simpl.
    rewrite Hp, Ha, Hf. auto. }
  pose proof (one_transfer_run _ os _ Hos H0) as (_ & H).
  fold s' in H.
  split; [| split].
  - intros Hact. destruct H as [[_ H] | [H _]]; [exact H | contradiction].
  - destruct H as [[_ H] | [_ H]]; auto.
  - intros u Hu.
    assert (Hf' : flying s' = [next_transfer s] \/ flying s' = [])
      by (destruct H as [[_ H] | [_ H]]; auto).
    exact (proj1 (is_flying_single _ _ _ Hf' Hu)).
Qed.

Lemma single_transfer_in_flight_witness :
  flying (run [OpTick 0 [full_ok 0%nat]; OpTick 0 [full_ok 0%nat]]
              (snd (hw_dev_acquisition_start [5] 0 dev_active)))
    = [0%nat].
Proof.
  apply (proj1 (single_transfer_in_flight [5] dev_active
                  [OpTick 0 [full_ok 0%nat]; OpTick 0 [full_ok 0%nat]]
                  eq_refl eq_refl eq_refl eq_refl)).
  reflexivity.
Defined.

(** ** The sample budget along a run *)

Lemma within_budget_callback (n : Z) (c : completion) (s : state) :
  di_priv s = true -> limit_samples s = n -> flying s = [] ->
  0 <= num_samples s < n -> n < UINT64_MOD ->
  within_budget n (c_transfer c) (receive_transfer c s).
Proof.
  intros Hp Hl Hf Hn Hm.
  assert (Hw : wrap_u64 (num_samples s + 1) = num_samples s + 1)
    by (apply wrap_u64_small; lia).
  unfold within_budget, receive_transfer, hw_dev_acquisition_stop.
  destruct s as [p st h lm ls ns et fd fl nx tr]. simpl in *. subst.
  rewrite Hw.
  destruct (Z.eqb_spec n 0) as [E0 | E0]; [lia |].
  destruct st, (c_status c), (c_actual_length c =? 14),
    (Z.geb_spec (ns + 1) n), (c_resubmit_rc c =? 0); simpl;
    (split; [reflexivity | split; [reflexivity | split; [lia |]]]);
    pick_branch.
Qed.

Lemma within_budget_same (n : Z) (t : transfer) (s s' : state) :
  di_priv s' = di_priv s -> limit_samples s' = limit_samples s ->
  num_samples s' = num_samples s -> flying s' = flying s ->
  (status s' = status s \/ status s' <> SR_ST_ACTIVE) ->
  within_budget n t s -> within_budget n t s'.
Proof.
  unfold within_budget. intros Hp Hl Hn Hf Hst (Hd & Hls & H0 & H).
  rewrite Hp, Hl, Hn, Hf.
  split; [exact Hd | split; [exact Hls | split; [exact H0 |]]].
  destruct H as [H | (Ha & H)]; [now left | right].
  split; [| exact H]. destruct Hst as [Hst | Hst]; congruence.
Qed.

Lemma within_budget_stop (n : Z) (t : transfer) (s : state) :
  within_budget n t s -> within_budget n t (snd (hw_dev_acquisition_stop s)).
Proof.
  apply within_budget_same; unfold hw_dev_acquisition_stop;
    destruct s as [p st h lm ls ns et fd fl nx tr];
    destruct p, st; simpl; auto; right; discriminate.
Qed.

Lemma within_budget_libusb_handle_events (n : Z) (t : transfer)
    (cs : list completion) :
  n < UINT64_MOD ->
  forall s : state,
    within_budget n t s -> within_budget n t (libusb_handle_events cs s).
Proof.
  intros Hm. induction cs as [| c cs IH]; intros s H; simpl; [exact H |].
  destruct (is_flying (c_transfer c) s) eqn:Hfly; [| now apply IH].
  apply IH. destruct H as (Hp & Hl & H0 & H).
  assert (Hf : flying s = [t] \/ flying s = [])
    by (destruct H as [[H _] | (_ & H & _)]; auto).
  destruct (is_flying_single _ _ _ Hf Hfly) as (Hu & Hft & Hun).
  destruct H as [[_ Hlt] | (_ & Hnil & _)]; [| congruence].
  rewrite <- Hu. apply within_budget_callback; auto.
Qed.

Lemma within_budget_handle_events (n : Z) (t : transfer) (mono_us : Z)
    (cs : list completion) (s : state) :
  n < UINT64_MOD ->
  within_budget n t s -> within_budget n t (handle_events mono_us cs s).
Proof.
  intros Hm H. unfold handle_events.
  apply within_budget_libusb_handle_events; [exact Hm |].
  set (s1 := if negb (limit_msec s =? 0) then _ else s).
  assert (H1 : within_budget n t s1).
  { subst s1. repeat break_if; auto using within_budget_stop. }
  clearbody s1.
  destruct (status_eqb (status s1) SR_ST_STOPPING) eqn:Est; [| exact H1].
  revert H1. apply within_budget_same;
    try (unfold hw_dev_close; simpl; repeat (break_if; simpl); reflexivity).
  right. unfold hw_dev_close. simpl.
  destruct (status s1) eqn:E; try discriminate.
  repeat (break_if; simpl); try rewrite E; discriminate.
Qed.

Lemma within_budget_run (n : Z) (t : transfer) (os : list op) :
  n < UINT64_MOD ->
  forall s : state,
    forallb keeps_sample_limit os = true ->
    within_budget n t s -> within_budget n t (run os s).
Proof.
  intros Hm. induction os as [| o os IH]; intros s Hos H; simpl in *;
    [exact H |].
  apply andb_true_iff in Hos. destruct Hos as [Ho Hos].
  apply IH; [exact Hos |].
  destruct o; try discriminate; unfold step, call; cbn [snd].
  - revert H. apply within_budget_same; unfold hw_dev_config_set;
      destruct s as [p st h lm ls ns et fd fl nx tr];
      destruct p, st, hwcap; simpl; auto; discriminate.
  - now apply within_budget_stop.
  - now apply within_budget_handle_events.
Qed.

(** X5: with a sample budget above the current count stored before an
    accepted start, and nothing in flight at that start, the counter
    never exceeds the budget through any stop requests, ticks and
    configuration of other capabilities, and it is below the budget
    whenever the device is still active. *)
Theorem sample_budget_never_exceeded :
  forall (pollfds : list Z) (s : state) (os : list op),
    di_priv s = true -> flying s = [] ->
    0 <= num_samples s < limit_samples s ->
    limit_samples s < UINT64_MOD ->
    forallb keeps_sample_limit os = true ->
    let s' := run os (snd (hw_dev_acquisition_start pollfds 0 s)) in
    num_samples s' <= limit_samples s
    /\ limit_samples s' = limit_samples s
    /\ (status s' = SR_ST_ACTIVE -> num_samples s' < limit_samples s).
Proof.
  intros pollfds s os Hp Hf Hn Hm Hos s'.
  assert (H0 : within_budget (limit_samples s) (next_transfer s)
                 (snd (hw_dev_acquisition_start pollfds 0 s))).
  { unfold within_budget, hw_dev_acquisition_start. rewrite Hp. simpl.
    rewrite Hp, Hf. repeat split; try lia. left. split; [reflexivity | lia]. }
  destruct (within_budget_run _ _ os Hm _ Hos H0) as (_ & Hl & _ & H).
  fold s' in Hl, H. split; [| split].
  - destruct H as [[_ H] | (_ & _ & H)]; lia.
  - exact Hl.
  - intros Ha. destruct H as [[_ H] | (H & _)]; [exact H | contradiction].
Qed.

Lemma sample_budget_never_exceeded_witness :
  let s := run [OpConfigSet SR_HWCAP_LIMIT_SAMPLES 2 0] dev_active in
  num_samples
    (run [OpTick 0 [full_ok 0%nat]; OpTick 0 [full_ok 0%nat];
          OpTick 0 [full_ok 0%nat]; OpStop; OpTick 0 []]
         (snd (hw_dev_acquisition_start [5] 0 s)))
    <= limit_samples s.
Proof.
  intros s.
  assert (Hn : 0 <= num_samples s < limit_samples s)
    by (vm_compute; split; [discriminate | reflexivity]).
  assert (Hm : limit_samples s < UINT64_MOD) by (vm_compute; reflexivity).
  exact (proj1 (sample_budget_never_exceeded [5] s
                  [OpTick 0 [full_ok 0%nat]; OpTick 0 [full_ok 0%nat];
                   OpTick 0 [full_ok 0%nat]; OpStop; OpTick 0 []]
                  eq_refl eq_refl Hn Hm eq_refl)).
Defined.

(** ** The time limit *)








(** ** Stop triggers of the completion callback *)

(** X7: a completion reporting that the device is gone, on an active
    device, requests the stop and frees the transfer and its buffer
    without resubmitting, whatever length it reports; the counter is
    not touched.  The next tick then closes the device and sends the
    end packet. *)
Theorem device_gone_stops :
  forall (c : completion) (s : state),
    di_priv s = true -> status s = SR_ST_ACTIVE ->
    c_status c = LIBUSB_TRANSFER_NO_DEVICE ->
    receive_transfer c s
      = emit [EvFreeTransfer (c_transfer c); EvFreeBuffer (c_transfer c)]
             (set_status SR_ST_STOPPING s)
    /\ (devhdl s = true ->
        forall mono_us : Z,
          let s' := handle_events mono_us [] (receive_transfer c s) in
          status s' = SR_ST_INACTIVE
          /\ sent_packets (trace s') = sent_packets (trace s) ++ [SR_DF_END]).
Proof.
  intros c s Hp Ha Hc.
  assert (E : receive_transfer c s
              = emit [EvFreeTransfer (c_transfer c);
                      EvFreeBuffer (c_transfer c)]
                     (set_status SR_ST_STOPPING s)).
  { unfold receive_transfer. rewrite Hc.
    rewrite stop_active by assumption. reflexivity. }
  split; [exact E |]. intros Hh mono_us. rewrite E.
  unfold handle_events, hw_dev_acquisition_stop, hw_dev_close.
  destruct s as [p st h lm ls ns et fd fl nx tr]. simpl in *. subst.
  destruct (lm =? 0), (Z.quot mono_us 1000 >? et); simpl;
    rewrite !sent_packets_app, sent_packets_source_remove; simpl;
    rewrite !app_nil_r; auto.
Qed.

Lemma device_gone_stops_witness :
  status (receive_transfer
            (mkCompletion 0%nat LIBUSB_TRANSFER_NO_DEVICE 14 0)
            dev_in_callback) = SR_ST_STOPPING.
Proof.
  rewrite (proj1 (device_gone_stops
                    (mkCompletion 0%nat LIBUSB_TRANSFER_NO_DEVICE 14 0)
                    dev_in_callback eq_refl eq_refl eq_refl)).
  reflexivity.
Defined.

(** X8: when the device is still active after the outcome is handled
    and libusb refuses the resubmission, the callback frees the
    transfer and its buffer, requests the stop and leaves nothing of
    that transfer in flight. *)
Theorem resubmit_failure_stops :
  forall (c : completion) (s : state),
    di_priv s = true -> status s = SR_ST_ACTIVE ->
    c_status c <> LIBUSB_TRANSFER_NO_DEVICE ->
    (full_packet c = true -> limit_samples s <> 0 ->
     wrap_u64 (num_samples s + 1) < limit_samples s) ->
    c_resubmit_rc c <> 0 ->
    let s' := receive_transfer c s in
    status s' = SR_ST_STOPPING
    /\ flying s' = flying s
    /\ trace s' = trace s ++ [EvSubmit (c_transfer c) (c_resubmit_rc c);
                              EvFreeTransfer (c_transfer c);
                              EvFreeBuffer (c_transfer c)]
    /\ num_samples s'
       = if full_packet c then wrap_u64 (num_samples s + 1)
         else num_samples s.
Proof.
  intros c s Hp Ha Hc Hb Hrc s'. subst s'.
  unfold receive_transfer, full_packet, hw_dev_acquisition_stop in *.
  destruct s as [p st h lm ls ns et fd fl nx tr]. simpl in *. subst.
  destruct (Z.eqb_spec (c_resubmit_rc c) 0) as [E | _]; [contradiction |].
  destruct (c_status c); try (now elim Hc); simpl; auto.
  destruct (c_actual_length c =? 14); simpl; auto.
  destruct (Z.eqb_spec ls 0) as [E0 | E0]; simpl; auto.
  specialize (Hb eq_refl E0).
  destruct (Z.geb_spec (wrap_u64 (ns + 1)) ls) as [Hge | Hlt]; [lia |].
  simpl. auto.
Qed.

Lemma resubmit_failure_stops_witness :
  status (receive_transfer
            (mkCompletion 0%nat LIBUSB_TRANSFER_TIMED_OUT 0 (-1))
            dev_in_callback) = SR_ST_STOPPING.
Proof.
  assert (H1 : LIBUSB_TRANSFER_TIMED_OUT <> LIBUSB_TRANSFER_NO_DEVICE)
    by discriminate.
  assert (H2 : false = true -> limit_samples dev_in_callback <> 0 ->
               wrap_u64 (num_samples dev_in_callback + 1)
                 < limit_samples dev_in_callback) by discriminate.
  assert (H3 : -1 <> 0) by discriminate.
  exact (proj1 (resubmit_failure_stops
                  (mkCompletion 0%nat LIBUSB_TRANSFER_TIMED_OUT 0 (-1))
                  dev_in_callback eq_refl eq_refl H1 H2 H3)).
Defined.

(** ** Event sources *)

Lemma fds_until_sentinel_app (a b : list Z) :
  ~ In (-1) a -> fds_until_sentinel (a ++ (-1) :: b) = a.
Proof.
  induction a as [| fd a IH]; intros Hn; simpl; [reflexivity |].
  destruct (Z.eqb_spec fd (-1)) as [E | E].
  - exfalso. apply Hn. left. exact E.
  - f_equal. apply IH. intros Hin. apply Hn. now right.
Qed.

Lemma usbfd_callback (c : completion) (s : state) :
  usbfd (receive_transfer c s) = usbfd s.
Proof.
  unfold receive_transfer, hw_dev_acquisition_stop.
  destruct s as [p st h lm ls ns et fd fl nx tr]. simpl.
  destruct p, st, (c_status c), (c_actual_length c =? 14), (ls =? 0),
    (wrap_u64 (ns + 1) >=? ls), (c_resubmit_rc c =? 0); reflexivity.
Qed.

Lemma usbfd_libusb_handle_events (cs : list completion) :
  forall s : state, usbfd (libusb_handle_events cs s) = usbfd s.
Proof.
  induction cs as [| c cs IH]; intros s; simpl; [reflexivity |].
  destruct (is_flying (c_transfer c) s); rewrite IH; [| reflexivity].
  now rewrite usbfd_callback.
Qed.

Lemma usbfd_run (os : list op) :
  forall s : state,
    forallb acquisition_call os = true -> usbfd (run os s) = usbfd s.
Proof.
  induction os as [| o os IH]; intros s Hos; simpl in *; [reflexivity |].
  apply andb_true_iff in Hos. destruct Hos as [Ho Hos].
  rewrite (IH _ Hos).
  destruct o; try discriminate; unfold step, call; cbn [snd].
  - unfold hw_dev_config_set.
    destruct hwcap; repeat (break_if; simpl); reflexivity.
  - unfold hw_dev_acquisition_stop. repeat (break_if; simpl); reflexivity.
  - unfold handle_events. rewrite usbfd_libusb_handle_events.
    unfold hw_dev_acquisition_stop, hw_dev_close.
    repeat (break_if; simpl); reflexivity.
Qed.

Lemma acquisition_packets_start (pollfds : list Z) (submit_rc : Z)
    (s : state) :
  di_priv s = true -> status s = SR_ST_ACTIVE -> devhdl s = true ->
  acquisition_packets (sent_packets (trace s))
    (snd (hw_dev_acquisition_start pollfds submit_rc s)).
Proof.
  intros Hp Ha Hh. unfold acquisition_packets, hw_dev_acquisition_start.
  rewrite Hp. simpl.
  destruct (negb (submit_rc =? 0)); simpl; rewrite Hp, Ha, Hh;
    (split; [reflexivity |]); left; repeat split; auto;
    rewrite !sent_packets_app, sent_packets_source_add; simpl;
    rewrite ?app_nil_r; reflexivity.
Qed.

(** X9: the descriptors a start registers with the event loop are the
    ones the ending tick removes, in the same order: after a start on
    an active, open device with poll descriptors none of which is -1,
    and any configuration calls, stop requests and ticks, the tick that
    finds the device stopping removes exactly these descriptors, then
    closes the device, then sends the end packet. *)
Theorem sources_removed_as_added :
  forall (pollfds : list Z) (submit_rc : Z) (s : state) (os : list op)
         (mono_us : Z),
    di_priv s = true -> status s = SR_ST_ACTIVE -> devhdl s = true ->
    ~ In (-1) pollfds ->
    forallb acquisition_call os = true ->
    let s' := run os (snd (hw_dev_acquisition_start pollfds submit_rc s)) in
    status s' = SR_ST_STOPPING ->
    trace (handle_events mono_us [] s')
      = trace s' ++ map EvSourceRemove pollfds
                 ++ [EvUsbClose; EvSend SR_DF_END].
Proof.
  intros pollfds submit_rc s os mono_us Hp Ha Hh Hn Hos s' Hst.
  assert (Hfd : usbfd s' = pollfds ++ [-1]).
  { subst s'. rewrite usbfd_run by assumption.
    unfold hw_dev_acquisition_start. rewrite Hp. simpl.
    destruct (negb (submit_rc =? 0)); reflexivity. }
  pose proof (acquisition_packets_run _ os _ Hos
                (acquisition_packets_start pollfds submit_rc s Hp Ha Hh))
    as (Hp' & [(_ & Hh' & _) | (Hin & _)]);
    fold s' in Hp'; [fold s' in Hh' | fold s' in Hin; congruence].
  unfold handle_events.
  assert (E1 : (if negb (limit_msec s' =? 0)
                then if Z.quot mono_us 1000 >? end_time s'
                     then snd (hw_dev_acquisition_stop s') else s'
                else s') = s').
  { repeat break_if; try reflexivity.
    apply stop_not_active. rewrite Hst. discriminate. }
  rewrite E1, Hst. simpl.
  unfold hw_dev_close. simpl. rewrite Hp', Hh', Hfd. simpl.
  rewrite fds_until_sentinel_app by assumption.
  rewrite <- !app_assoc. reflexivity.
Qed.

Lemma sources_removed_as_added_witness :
  trace (handle_events 0 []
           (run [OpStop] (snd (hw_dev_acquisition_start [5; 7] 0 dev_active))))
    = trace (run [OpStop]
                 (snd (hw_dev_acquisition_start [5; 7] 0 dev_active)))
      ++ map EvSourceRemove [5; 7] ++ [EvUsbClose; EvSend SR_DF_END].
Proof.
  assert (Hn : ~ In (-1) [5; 7]).
  { simpl. intros [H | [H | H]]; [discriminate | discriminate | exact H]. }
  exact (sources_removed_as_added [5; 7] 0 dev_active [OpStop] 0
           eq_refl eq_refl eq_refl Hn eq_refl eq_refl).
Defined.

(** ** Stored limits *)

(** X10: a later [hw_dev_config_set] of a capability overrides an
    earlier one of the same capability entirely, and storing the time
    limit and storing the sample limit do not interfere: either order
    gives the same state.  Limits, counter and deadline survive a close
    followed by a successful reopen. *)
Theorem config_set_composes :
  forall (s : state) (hwcap : sr_hwcap) (v1 t1 v2 t2 : Z) (e : open_env),
    snd (hw_dev_config_set hwcap v2 t2
           (snd (hw_dev_config_set hwcap v1 t1 s)))
      = snd (hw_dev_config_set hwcap v2 t2 s)
    /\ snd (hw_dev_config_set SR_HWCAP_LIMIT_SAMPLES v2 t2
              (snd (hw_dev_config_set SR_HWCAP_LIMIT_MSEC v1 t1 s)))
         = snd (hw_dev_config_set SR_HWCAP_LIMIT_MSEC v1 t1
                  (snd (hw_dev_config_set SR_HWCAP_LIMIT_SAMPLES v2 t2 s)))
    /\ (let s' := snd (hw_dev_open e (snd (hw_dev_close s))) in
        limit_msec s' = limit_msec s
        /\ limit_samples s' = limit_samples s
        /\ num_samples s' = num_samples s
        /\ end_time s' = end_time s).
Proof.
  intros s hwcap v1 t1 v2 t2 e.
  unfold hw_dev_config_set, hw_dev_open, hw_dev_close.
  destruct s as [p st h lm ls ns et fd fl nx tr]. simpl.
  split; [| split].
  - destruct p, st, hwcap; reflexivity.
  - destruct p, st; reflexivity.
  - destruct p, h, (dev_found e), (open_rc e =? 0),
      (kernel_driver_active e =? 1), (detach_rc e <? 0),
      (claim_rc e =? 0); simpl; auto.
Qed.

(** ** Scanning *)

Lemma scan_loop_all (devlist : list Registry.usb_entry) :
  forall insts devices : list Registry.sr_dev_inst,
    (forall e, In e devlist -> Registry.is_victor e = true ->
               Registry.alloc_ok e = true) ->
    Registry.scan_loop devlist insts devices
      = (devices ++ Registry.numbered (length insts)
                      (filter Registry.is_victor devlist),
         insts ++ Registry.numbered (length insts)
                    (filter Registry.is_victor devlist)).
Proof.
  induction devlist as [| e rest IH]; intros insts devices Hall; simpl.
  - now rewrite !app_nil_r.
  - assert (Hrest : forall e', In e' rest -> Registry.is_victor e' = true ->
                               Registry.alloc_ok e' = true)
      by (intros e' Hin; apply Hall; now right).
    pose proof (Hall e (or_introl eq_refl)) as He.
    unfold Registry.is_victor in *.
    destruct (Registry.desc_rc e =? 0),
             (Registry.idVendor e =? Registry.VICTOR_VID),
             (Registry.idProduct e =? Registry.VICTOR_PID); simpl in *;
      try (now apply IH).
    rewrite (He eq_refl). simpl. rewrite IH by assumption.
    rewrite length_app, Nat.add_1_r, <- !app_assoc. reflexivity.
Qed.

Lemma scan_loop_stops (pre post : list Registry.usb_entry)
    (e : Registry.usb_entry) :
  forall insts devices : list Registry.sr_dev_inst,
    (forall e', In e' pre -> Registry.is_victor e' = true ->
                Registry.alloc_ok e' = true) ->
    Registry.is_victor e = true -> Registry.alloc_ok e = false ->
    Registry.scan_loop (pre ++ e :: post) insts devices
      = ([], insts ++ Registry.numbered (length insts)
                        (filter Registry.is_victor pre)).
Proof.
  induction pre as [| a pre IH]; intros insts devices Hall He Ha; simpl.
  - unfold Registry.is_victor in He.
    apply andb_true_iff in He. destruct He as [He H3].
    apply andb_true_iff in He. destruct He as [H1 H2].
    rewrite H1, H2, H3, Ha. simpl. now rewrite app_nil_r.
  - assert (Hpre : forall e', In e' pre -> Registry.is_victor e' = true ->
                              Registry.alloc_ok e' = true)
      by (intros e' Hin; apply Hall; now right).
    pose proof (Hall a (or_introl eq_refl)) as Hal.
    unfold Registry.is_victor in Hal |- *.
    destruct (Registry.desc_rc a =? 0),
             (Registry.idVendor a =? Registry.VICTOR_VID),
             (Registry.idProduct a =? Registry.VICTOR_PID); simpl in *;
      try (now apply IH).
    rewrite (Hal eq_refl). simpl. rewrite IH by assumption.
    rewrite length_app, Nat.add_1_r, <- !app_assoc. reflexivity.
Qed.

Lemma scan_loop_sound (devlist : list Registry.usb_entry) :
  forall (insts devices : list Registry.sr_dev_inst)
         (i : Registry.sr_dev_inst),
    In i (snd (Registry.scan_loop devlist insts devices))
    \/ In i (fst (Registry.scan_loop devlist insts devices)) ->
    In i insts \/ In i devices
    \/ exists (e : Registry.usb_entry) (k : nat),
         In e devlist /\ Registry.is_victor e = true
         /\ i = Registry.new_inst k e.
Proof.
  induction devlist as [| e rest IH]; intros insts devices i Hin; simpl in *.
  - tauto.
  - assert (Hskip :
      In i (snd (Registry.scan_loop rest insts devices))
      \/ In i (fst (Registry.scan_loop rest insts devices)) ->
      In i insts \/ In i devices
      \/ exists (e0 : Registry.usb_entry) (k : nat),
           (e = e0 \/ In e0 rest) /\ Registry.is_victor e0 = true
           /\ i = Registry.new_inst k e0).
    { intros H. destruct (IH _ _ _ H) as [H1 | [H1 | (e0 & k & H1 & H2)]];
        auto. right. right. exists e0, k. tauto. }
    destruct (Registry.desc_rc e =? 0) eqn:E1; simpl in Hin; [| auto].
    destruct (Registry.idVendor e =? Registry.VICTOR_VID) eqn:E2;
      simpl in Hin; [| auto].
    destruct (Registry.idProduct e =? Registry.VICTOR_PID) eqn:E3;
      simpl in Hin; [| auto].
    destruct (Registry.alloc_ok e); simpl in Hin; [| tauto].
    destruct (IH _ _ _ Hin) as [H1 | [H1 | (e0 & k & H1 & H2)]].
    + apply in_app_or in H1. destruct H1 as [H1 | [H1 | []]]; [auto |].
      right. right. exists e, (length insts).
      unfold Registry.is_victor. rewrite E1, E2, E3. auto.
    + apply in_app_or in H1. destruct H1 as [H1 | [H1 | []]]; [auto |].
      right. right. exists e, (length insts).
      unfold Registry.is_victor. rewrite E1, E2, E3. auto.
    + right. right. exists e0, k. tauto.
Qed.

(** X11: a scan takes only Victor devices.  Every instance the driver
    knows after [hw_scan], and every instance [hw_scan] returns, was
    built in this scan from an entry of the device list whose
    descriptor could be read and whose vendor and product ids are
    0x1244 and 0xd237; it carries that entry's bus and address, the
    vendor name, one analog probe, and is inactive with no handle, no
    limits and a zero counter. *)
Theorem scan_only_victor :
  forall (devlist : list Registry.usb_entry) (d : Registry.driver)
         (i : Registry.sr_dev_inst),
    In i (fst (Registry.hw_scan devlist d))
    \/ In i (Registry.hw_dev_list (snd (Registry.hw_scan devlist d))) ->
    (exists e : Registry.usb_entry,
        In e devlist /\ Registry.desc_rc e = 0
        /\ Registry.idVendor e = 0x1244 /\ Registry.idProduct e = 0xd237
        /\ Registry.usb_bus i = Registry.bus_number e
        /\ Registry.usb_address i = Registry.device_address e)
    /\ Registry.vendor i = "Victor"%string
    /\ length (Registry.probes i) = 1%nat
    /\ status (Registry.dev i) = SR_ST_INACTIVE
    /\ devhdl (Registry.dev i) = false
    /\ limit_msec (Registry.dev i) = 0
    /\ limit_samples (Registry.dev i) = 0
    /\ num_samples (Registry.dev i) = 0.
Proof.
  intros devlist d i Hin. unfold Registry.hw_scan, Registry.hw_dev_list in Hin.
  destruct (Registry.instances d) as [l |] eqn:Hd; simpl in Hin;
    [| rewrite Hd in Hin; destruct Hin as [[] | []]].
  assert (Hin' : In i (snd (Registry.scan_loop devlist [] []))
                 \/ In i (fst (Registry.scan_loop devlist [] [])))
    by (destruct Hin; [right | left]; assumption).
  destruct (scan_loop_sound devlist [] [] i Hin')
    as [[] | [[] | (e & k & He & Hv & ->)]].
  unfold Registry.is_victor in Hv.
  apply andb_true_iff in Hv. destruct Hv as [Hv H3].
  apply andb_true_iff in Hv. destruct Hv as [H1 H2].
  apply Z.eqb_eq in H1, H2, H3.
  split; [exists e; repeat split; auto |]. repeat split.
Qed.

Lemma scan_only_victor_witness :
  let e := Registry.mkUsbEntry 0 0x1244 0xd237 1 4 true in
  status (Registry.dev (Registry.new_inst 0 e)) = SR_ST_INACTIVE.
Proof.
  intros e.
  assert (Hin :
    In (Registry.new_inst 0 e)
       (fst (Registry.hw_scan [e]
               (snd (Registry.hw_init true Registry.driver_new))))
    \/ In (Registry.new_inst 0 e)
          (Registry.hw_dev_list
             (snd (Registry.hw_scan [e]
                     (snd (Registry.hw_init true Registry.driver_new))))))
    by (left; left; reflexivity).
  exact (proj1 (proj2 (proj2 (proj2
           (scan_only_victor [e]
              (snd (Registry.hw_init true Registry.driver_new))
              (Registry.new_inst 0 e) Hin))))).
Defined.

(** X12: a scan is authoritative.  Under an initialised driver with
    every allocation succeeding, [hw_scan] returns one instance per
    matching device, in device-list order and indexed 0, 1, 2, ...,
    whatever instances the driver knew before; [hw_dev_list] then
    returns the same list.  The instances known before are all handed
    to [hw_dev_close] and freed, so that scanning twice leaves the same
    list as scanning once. *)
Theorem scan_authoritative :
  forall (devlist : list Registry.usb_entry) (d : Registry.driver)
         (old : list Registry.sr_dev_inst),
    Registry.instances d = Some old ->
    (forall e, In e devlist -> Registry.is_victor e = true ->
               Registry.alloc_ok e = true) ->
    let r := Registry.hw_scan devlist d in
    fst r = Registry.numbered 0 (filter Registry.is_victor devlist)
    /\ Registry.hw_dev_list (snd r) = fst r
    /\ map Registry.index (fst r)
         = map Z.of_nat (seq 0 (length (filter Registry.is_victor devlist)))
    /\ Registry.freed (snd r)
         = Registry.freed d ++ map Registry.close_inst old
    /\ Registry.hw_dev_list (snd (Registry.hw_scan devlist (snd r))) = fst r.
Proof.
  intros devlist d old Hd Hall r. subst r.
  unfold Registry.hw_scan, Registry.hw_dev_list, Registry.clear_instances.
  rewrite Hd. simpl. rewrite (scan_loop_all devlist [] [] Hall). simpl.
  repeat split.
  generalize 0%nat.
  induction (filter Registry.is_victor devlist) as [| e l IH]; intros n;
    simpl; [reflexivity |].
  now rewrite IH.
Qed.

Lemma scan_authoritative_witness :
  let devs := [ Registry.mkUsbEntry 0 0x1d6b 0x0002 1 1 true;
                Registry.mkUsbEntry 0 0x1244 0xd237 1 4 true;
                Registry.mkUsbEntry (-4) 0x1244 0xd237 2 3 true;
                Registry.mkUsbEntry 0 0x1244 0xd237 2 5 true ] in
  let d := snd (Registry.hw_init true Registry.driver_new) in
  map Registry.index (fst (Registry.hw_scan devs d)) = [0; 1].
Proof.
  intros devs d.
  assert (Hall : forall e, In e devs -> Registry.is_victor e = true ->
                           Registry.alloc_ok e = true).
  { intros e [<- | [<- | [<- | [<- | []]]]] _; reflexivity. }
  exact (proj1 (proj2 (proj2
           (scan_authoritative devs d [] eq_refl Hall)))).
Defined.

(** X13: a failed allocation makes [hw_scan] return the empty list at
    once, yet the instances built before the failure stay in the
    driver's list, where [hw_dev_list] still shows them; and on a
    driver that is not initialised [hw_scan] returns the empty list
    and changes nothing. *)
Theorem scan_failures :
  forall (pre post : list Registry.usb_entry) (e : Registry.usb_entry)
         (d : Registry.driver),
    (Registry.instances d = None ->
     forall devlist, Registry.hw_scan devlist d = ([], d))
    /\ (Registry.instances d <> None ->
        (forall e', In e' pre -> Registry.is_victor e' = true ->
                    Registry.alloc_ok e' = true) ->
        Registry.is_victor e = true -> Registry.alloc_ok e = false ->
        fst (Registry.hw_scan (pre ++ e :: post) d) = []
        /\ Registry.hw_dev_list (snd (Registry.hw_scan (pre ++ e :: post) d))
             = Registry.numbered 0 (filter Registry.is_victor pre)).
Proof.
  intros pre post e d. unfold Registry.hw_scan, Registry.hw_dev_list.
  split.
  - intros Hd devlist. now rewrite Hd.
  - intros Hd Hall He Ha.
    destruct (Registry.instances d) as [l |]; [| now elim Hd]. simpl.
    rewrite (scan_loop_stops pre post e [] [] Hall He Ha). auto.
Qed.

Lemma scan_failures_witness :
  let d := snd (Registry.hw_init true Registry.driver_new) in
  let devs := [ Registry.mkUsbEntry 0 0x1244 0xd237 1 4 true ] in
  let bad := Registry.mkUsbEntry 0 0x1244 0xd237 2 5 false in
  Registry.hw_scan devs Registry.driver_new = ([], Registry.driver_new)
  /\ fst (Registry.hw_scan (devs ++ bad :: []) d) = []
  /\ length (Registry.hw_dev_list
               (snd (Registry.hw_scan (devs ++ bad :: []) d))) = 1%nat.
Proof.
  intros d devs bad.
  destruct (scan_failures devs [] bad Registry.driver_new) as [H1 _].
  destruct (scan_failures devs [] bad d) as [_ H2].
  assert (Hd : Registry.instances d <> None) by (simpl; discriminate).
  assert (Hall : forall e', In e' devs -> Registry.is_victor e' = true ->
                            Registry.alloc_ok e' = true).
  { intros e' [<- | []] _. reflexivity. }
  destruct (H2 Hd Hall eq_refl eq_refl) as [H3 H4].
  split; [exact (H1 eq_refl devs) | split; [exact H3 |]].
  rewrite H4. reflexivity.
Defined.

(** ** Clearing, initialising and cleaning up *)

(** X14: [clear_instances] always returns [SR_OK] and leaves no
    instance for [hw_dev_list] to show.  Every instance it frees has
    been through [hw_dev_close]: none keeps a handle, and one that had
    a handle is inactive with the one release-and-close call recorded.
    On a driver that is not initialised it does nothing, and clearing
    twice is clearing once. *)
Theorem clear_instances_closes_all :
  forall d : Registry.driver,
    let d' := snd (Registry.clear_instances d) in
    fst (Registry.clear_instances d) = SR_OK
    /\ Registry.hw_dev_list d' = []
    /\ Registry.clear_instances d' = (SR_OK, d')
    /\ (Registry.instances d = None -> d' = d)
    /\ (forall old : list Registry.sr_dev_inst,
          Registry.instances d = Some old ->
          Registry.freed d'
            = Registry.freed d ++ map Registry.close_inst old
          /\ forall i : Registry.sr_dev_inst,
               In i old ->
               devhdl (Registry.dev (Registry.close_inst i)) = false
               /\ (devhdl (Registry.dev i) = true ->
                   status (Registry.dev (Registry.close_inst i))
                     = SR_ST_INACTIVE
                   /\ trace (Registry.dev (Registry.close_inst i))
                        = trace (Registry.dev i) ++ [EvUsbClose])).
Proof.
  intros d d'. subst d'. unfold Registry.clear_instances, Registry.hw_dev_list.
  destruct d as [[l |] f]; simpl.
  - repeat split; try discriminate.
    + now rewrite app_nil_r.
    + congruence.
    + destruct i as [ix v pr b a [p st h lm ls ns et fd fl nx tr]].
      unfold hw_dev_close. simpl. now destruct h.
    + destruct i as [ix v pr b a [p st h lm ls ns et fd fl nx tr]].
      unfold hw_dev_close. simpl in *. intros; subst. reflexivity.
    + destruct i as [ix v pr b a [p st h lm ls ns et fd fl nx tr]].
      unfold hw_dev_close. simpl in *. subst. reflexivity.
  - repeat split; try discriminate.
Qed.

Lemma clear_instances_closes_all_witness :
  let i := Registry.mkInst 0 "Victor"%string [] 1 4 dev_running in
  let d := Registry.mkDriver (Some [i]) [] in
  status (Registry.dev (Registry.close_inst i)) = SR_ST_INACTIVE.
Proof.
  intros i d.
  destruct (clear_instances_closes_all d) as (_ & _ & _ & _ & H).
  destruct (H [i] eq_refl) as [_ Hi].
  destruct (Hi i (or_introl eq_refl)) as [_ Hc].
  exact (proj1 (Hc eq_refl)).
Defined.

(** X15: after [hw_cleanup] the driver is not initialised:
    [hw_dev_list] shows nothing, [hw_scan] finds nothing and changes
    nothing, and a second [hw_cleanup] does nothing; what it freed is
    what [clear_instances] frees.  [hw_init] followed by [hw_cleanup]
    gives back the uninitialised driver it started from.  [hw_init] on
    a driver that is already initialised installs an empty list
    without closing or freeing the instances known before, and when
    its allocation fails it returns [SR_ERR_MALLOC] and changes
    nothing. *)
Theorem driver_lifecycle :
  forall d : Registry.driver,
    let c := snd (Registry.hw_cleanup d) in
    Registry.instances c = None
    /\ Registry.hw_dev_list c = []
    /\ (forall devlist, Registry.hw_scan devlist c = ([], c))
    /\ Registry.hw_cleanup c = (SR_OK, c)
    /\ Registry.freed c = Registry.freed (snd (Registry.clear_instances d))
    /\ (Registry.instances d = None ->
        snd (Registry.hw_cleanup (snd (Registry.hw_init true d))) = d)
    /\ Registry.hw_dev_list (snd (Registry.hw_init true d)) = []
    /\ Registry.freed (snd (Registry.hw_init true d)) = Registry.freed d
    /\ Registry.hw_init false d = (SR_ERR_MALLOC, d).
Proof.
  intros d c. subst c.
  unfold Registry.hw_cleanup, Registry.hw_scan, Registry.hw_dev_list,
    Registry.hw_init, Registry.clear_instances.
  destruct d as [[l |] f]; simpl; repeat split; try discriminate.
  intros _. now rewrite app_nil_r.
Qed.

Lemma driver_lifecycle_witness :
  snd (Registry.hw_cleanup (snd (Registry.hw_init true Registry.driver_new)))
    = Registry.driver_new.
Proof.
  apply (proj1 (proj2 (proj2 (proj2 (proj2 (proj2
           (driver_lifecycle Registry.driver_new))))))).
  reflexivity.
Defined.

(** ** Device information *)

(** X16: what [hw_info_get] reports agrees with the rest of the driver.
    Every capability [hw_dev_config_set] accepts is in the capability
    list it reports, whereas two of the four it lists, the multimeter
    and continuous capabilities, are refused with [SR_ERR_ARG]; the
    probe count and the probe names it reports are those of every
    instance a scan creates.  For an id it does not know it returns
    [SR_ERR_ARG] and leaves the data pointer as it was. *)
Theorem info_agrees_with_driver :
  forall (data : option info_data),
    (forall (hwcap : sr_hwcap) (value mono_us : Z) (s : state),
        fst (hw_dev_config_set hwcap value mono_us s) = SR_OK ->
        exists caps : list sr_hwcap,
          hw_info_get SR_DI_HWCAPS data = (SR_OK, Some (DataHwcaps caps))
          /\ In hwcap caps)
    /\ (forall (value mono_us : Z) (s : state),
          di_priv s = true -> status s = SR_ST_ACTIVE ->
          In SR_HWCAP_MULTIMETER hwcaps /\ In SR_HWCAP_CONTINUOUS hwcaps
          /\ fst (hw_dev_config_set SR_HWCAP_MULTIMETER value mono_us s)
               = SR_ERR_ARG
          /\ fst (hw_dev_config_set SR_HWCAP_CONTINUOUS value mono_us s)
               = SR_ERR_ARG)
    /\ (forall (devlist : list Registry.usb_entry) (d : Registry.driver)
               (i : Registry.sr_dev_inst),
          In i (Registry.hw_dev_list (snd (Registry.hw_scan devlist d))) ->
          hw_info_get SR_DI_NUM_PROBES data
            = (SR_OK, Some (DataInt (Z.of_nat (length (Registry.probes i)))))
          /\ hw_info_get SR_DI_PROBE_NAMES data
               = (SR_OK,
                  Some (DataNames (map Registry.probe_name
                                       (Registry.probes i)))))
    /\ (forall code : Z,
          hw_info_get (SR_DI_OTHER code) data = (SR_ERR_ARG, data)).
Proof.
  intros data. split; [| split; [| split]].
  - intros hwcap value mono_us s Hok. exists hwcaps.
    split; [reflexivity |]. unfold hw_dev_config_set in Hok.
    destruct (di_priv s), (status s), hwcap; simpl in Hok;
      try discriminate; simpl; auto.
  - intros value mono_us s Hp Ha. unfold hw_dev_config_set.
    rewrite Hp, Ha. simpl. repeat split; auto.
  - intros devlist d i Hin.
    unfold Registry.hw_scan, Registry.hw_dev_list in Hin.
    destruct (Registry.instances d) as [l |] eqn:Hd; simpl in Hin;
      [| rewrite Hd in Hin; destruct Hin].
    destruct (scan_loop_sound devlist [] [] i (or_introl Hin))
      as [[] | [[] | (e & k & _ & _ & ->)]].
    split; reflexivity.
  - reflexivity.
Qed.

Lemma info_agrees_with_driver_witness :
  fst (hw_dev_config_set SR_HWCAP_CONTINUOUS 1 0 dev_active) = SR_ERR_ARG.
Proof.
  destruct (info_agrees_with_driver None) as (_ & H & _).
  exact (proj2 (proj2 (proj2 (H 1 0 dev_active eq_refl eq_refl)))).
Defined.
